(** * ShotSync comment panel: the comment view derivation

    A shallow embedding of the three derivation functions of
    [src/components/CommentPanel.tsx]

      - [getTopLevelComments]  (the spec's deriveTopLevelView),
      - [getReplies]           (the spec's repliesOf),
      - [getCommentCounts]     (the spec's countsByType),

    first as pure functions on lists, then as programs over a store of
    arrays and objects, where [Array.prototype.sort] really sorts in place
    and object spread really allocates.

    Modelling conventions.
      - Numbers: [timestamp] and [createdAt.getTime()] are integers ([Z]).
        The comparators only use the sign of a difference and the test
        [timestamp >= 0], so any totally ordered number type behaves alike
        (NaN is not modelled).
      - Strings: [string] of the Standard Library, one [ascii] per code unit,
        so the strings modelled are those of code units below 256 (Basic
        Latin and Latin-1); a code unit from 128 up is written
        [ascii_of_nat n], not as a character of a literal. [toLowerCase]
        lowers the capitals of that range, 'A'..'Z' and U+00C0..U+00DE
        without the multiplication sign U+00D7.
      - [String.prototype.localeCompare] is the host's collation; it is a
        parameter [localeCompare] of the development.
      - [Array.prototype.sort] is the stable sort of ECMAScript 2019; for a
        consistent comparator its result is determined, and it is computed
        here by a stable insertion sort. *)

From Stdlib Require Import List ZArith Lia Bool Ascii String Arith.
From Stdlib Require Import Sorting.Sorted Sorting.Permutation.
From Stdlib Require Import DecimalString.
Import ListNotations.

Open Scope string_scope.
Open Scope Z_scope.

Set Implicit Arguments.

(** ** Strings *)

Module JsString.

(** A string is truthy iff it is not empty. *)
Definition truthy (s : string) : bool :=
  match s with
  | EmptyString => false
  | String _ _ => true
  end.

(** The lower case mapping of a code unit below 256: the capitals
    U+0041..U+005A and U+00C0..U+00DE, except the multiplication sign
    U+00D7, are 32 below their small letters. *)
Definition toLowerChar (c : ascii) : ascii :=
  let n := nat_of_ascii c in
  if ((65 <=? n)%nat && (n <=? 90)%nat)
     || ((192 <=? n)%nat && (n <=? 222)%nat && negb (n =? 215)%nat)
  then ascii_of_nat (n + 32) else c.

Fixpoint toLowerCase (s : string) : string :=
  match s with
  | EmptyString => EmptyString
  | String c r => String (toLowerChar c) (toLowerCase r)
  end.

(** [startsWith s p]: [p] is a prefix of [s]. *)
Fixpoint startsWith (s p : string) {struct p} : bool :=
  match p, s with
  | EmptyString, _ => true
  | String _ _, EmptyString => false
  | String a p', String b s' => Ascii.eqb a b && startsWith s' p'
  end.

(** [includes s sub]: [sub] occurs in [s] as a contiguous substring. *)
Fixpoint includes (s sub : string) : bool :=
  startsWith s sub ||
  match s with
  | EmptyString => false
  | String _ r => includes r sub
  end.

(** The specification of substring containment. *)
Definition Contains (s sub : string) : Prop :=
  exists pre post, s = pre ++ sub ++ post.






End JsString.
Import JsString.

(** ** The data model *)

Record AttachmentWithType := {
  url : string;
  type : string;
  name : string
}.

(** [Comment] of [@/pages/Index]. [parentId] and [attachments] are optional
    properties ([None] is [undefined]). *)
Record Comment := {
  id : string;
  parentId : option string;
  text : string;
  author : string;
  createdAt : Z;
  timestamp : Z;
  attachments : option (list AttachmentWithType);
  hasDrawing : bool
}.

Module CommentFilters.
Record t := mk {
  annotations : bool;
  attachments : bool;
  completed : bool;
  incomplete : bool;
  unread : bool;
  mentionsAndReactions : bool
}.
End CommentFilters.

(** An element of the derived view: [{ ...comment, commentNumber }]. *)
Record NumberedComment := {
  comment : Comment;
  commentNumber : Z
}.

Record CommentCounts := {
  all : nat;
  public : nat;
  internal : nat
}.

(** ** Arrays *)

Module JsArray.
Section Ops.
Variable A : Type.

(** [findIndex]: the index of the first element satisfying [p], or -1. *)
Fixpoint findIndexFrom (i : Z) (p : A -> bool) (l : list A) : Z :=
  match l with
  | [] => -1
  | x :: r => if p x then i else findIndexFrom (i + 1) p r
  end.

Definition findIndex (p : A -> bool) (l : list A) : Z :=
  findIndexFrom 0 p l.

(** Stable sort by a comparator [cmp a b] whose sign orders [a] and [b]:
    an element is put in front of the first one it does not exceed, so
    ties keep the order of the input. *)
Variable cmp : A -> A -> Z.

Fixpoint insert (x : A) (l : list A) : list A :=
  match l with
  | [] => [x]
  | y :: r => if cmp x y <=? 0 then x :: y :: r else y :: insert x r
  end.

Definition sort (l : list A) : list A := fold_right insert [] l.
End Ops.
End JsArray.

(** ** The derivation functions *)

(** [!comment.parentId]: the property is absent or the empty string. *)
Definition noParent (c : Comment) : bool :=
  match parentId c with
  | None => true
  | Some p => negb (truthy p)
  end.

(** [comment.parentId === parentId] for a string [parentId]. *)
Definition parentIs (p : string) (c : Comment) : bool :=
  match parentId c with
  | None => false
  | Some q => String.eqb q p
  end.

(** [comment.attachments && comment.attachments.length > 0] *)
Definition hasAttachments (c : Comment) : bool :=
  match attachments c with
  | None => false
  | Some l => (0 <? List.length l)%nat
  end.

Definition matchesSearch (searchTerm : string) (c : Comment) : bool :=
  includes (toLowerCase (text c)) (toLowerCase searchTerm)
  || includes (toLowerCase (author c)) (toLowerCase searchTerm).

Definition isInternal (c : Comment) : bool := includes (text c) "internal".

Definition byTimestamp (a b : Comment) : Z := timestamp a - timestamp b.
Definition byOldest (a b : Comment) : Z := createdAt a - createdAt b.
Definition byNewest (a b : Comment) : Z := createdAt b - createdAt a.

Section Deriver.

(** [a.localeCompare(b)]: negative, zero or positive. *)
Variable localeCompare : string -> string -> Z.

Definition byCommenter (a b : Comment) : Z :=
  localeCompare (author a) (author b).

(** The comparator chosen by the [switch (sortBy)]. *)
Definition comparator (sortBy : string) : Comment -> Comment -> Z :=
  if String.eqb sortBy "oldest" then byOldest
  else if String.eqb sortBy "newest" then byNewest
  else if String.eqb sortBy "commenter" then byCommenter
  else byTimestamp.

Definition allTopLevelByTimestamp (comments : list Comment) : list Comment :=
  JsArray.sort byTimestamp
    (filter (fun c => noParent c && (0 <=? timestamp c)) comments).

Definition numberOf (comments : list Comment) (c : Comment) : Z :=
  JsArray.findIndex (fun d => String.eqb (id d) (id c))
    (allTopLevelByTimestamp comments) + 1.

Definition getTopLevelComments (comments : list Comment)
    (searchTerm selectedCommentType : string) (filters : CommentFilters.t)
    (sortBy : string) : list NumberedComment :=
  let filteredComments := filter noParent comments in
  let filteredComments :=
    if truthy searchTerm
    then filter (matchesSearch searchTerm) filteredComments
    else filteredComments in
  let filteredComments :=
    if String.eqb selectedCommentType "public"
    then filter (fun c => negb (isInternal c)) filteredComments
    else if String.eqb selectedCommentType "internal"
    then filter isInternal filteredComments
    else filteredComments in
  let filteredComments :=
    if CommentFilters.attachments filters
    then filter hasAttachments filteredComments
    else filteredComments in
  let sortedComments :=
    JsArray.sort (comparator sortBy) filteredComments in
  map (fun c => {| comment := c; commentNumber := numberOf comments c |})
    sortedComments.

Definition getReplies (comments : list Comment) (parentId : string)
    : list Comment :=
  filter (parentIs parentId) comments.

Definition getCommentCounts (comments : list Comment) : CommentCounts :=
  let topLevel := filter noParent comments in
  {| all := List.length topLevel;
     public := List.length (filter (fun c => negb (isInternal c)) topLevel);
     internal := List.length (filter isInternal topLevel) |}.

End Deriver.

(** ** The same functions over a store

    Arrays and objects live in a store and are handled by reference, as in
    the source: [filter] and [map] allocate a new array, [sort] overwrites
    the array it is called on, and [{ ...comment, commentNumber }] allocates
    a new object. A program is a function from the store to a result and a
    new store, or to [None] when it reads a reference that is not there. *)

Module Store.

Definition ref := nat.

Inductive object :=
| OComment (c : Comment)
| ONumbered (n : NumberedComment).

(** The [Comment] properties of an object. *)
Definition asComment (o : object) : Comment :=
  match o with
  | OComment c => c
  | ONumbered n => comment n
  end.

Record t := mk {
  objects : list object;
  arrays : list (list ref)
}.

Fixpoint traverse (B : Type) (g : ref -> option B) (l : list ref)
    : option (list B) :=
  match l with
  | [] => Some []
  | r :: l' =>
      match g r, traverse g l' with
      | Some b, Some bs => Some (b :: bs)
      | _, _ => None
      end
  end.

Definition commentAt (h : t) (r : ref) : option Comment :=
  option_map asComment (nth_error (objects h) r).

Definition numberedAt (h : t) (r : ref) : option NumberedComment :=
  match nth_error (objects h) r with
  | Some (ONumbered n) => Some n
  | _ => None
  end.

(** The comments, and the numbered comments, that the array [a] holds. *)
Definition comments (h : t) (a : ref) : option (list Comment) :=
  match nth_error (arrays h) a with
  | Some l => traverse (commentAt h) l
  | None => None
  end.

Definition numbered (h : t) (a : ref) : option (list NumberedComment) :=
  match nth_error (arrays h) a with
  | Some l => traverse (numberedAt h) l
  | None => None
  end.

(** Every object and every array of [h] is in [h'] at the same reference,
    with the same value. *)
Definition unchanged (h h' : t) : Prop :=
  (forall r o, nth_error (objects h) r = Some o ->
               nth_error (objects h') r = Some o) /\
  (forall a l, nth_error (arrays h) a = Some l ->
               nth_error (arrays h') a = Some l).

(** [h'] is [h] with more arrays, among them [x], which holds [xs]. *)
Definition allocated (h h' : t) (x : ref) (xs : list Comment) : Prop :=
  unchanged h h' /\ objects h' = objects h /\
  nth_error (arrays h) x = None /\ comments h' x = Some xs.

(** The array [a] of [h'] and the objects it holds are not in [h]. *)
Definition freshArray (h h' : t) (a : ref) : Prop :=
  nth_error (arrays h) a = None /\
  forall l r, nth_error (arrays h') a = Some l -> In r l ->
              nth_error (objects h) r = None.

End Store.

Module StoreMonad.
Import Store.

Definition M (A : Type) : Type := Store.t -> option (A * Store.t).

Definition ret (A : Type) (a : A) : M A := fun h => Some (a, h).

Definition bind (A B : Type) (m : M A) (k : A -> M B) : M B :=
  fun h =>
    match m h with
    | Some (a, h') => k a h'
    | None => None
    end.

Notation "x <- m ;; k" := (bind m (fun x => k))
  (at level 61, m at next level, right associativity).

(** *** Reading and allocating *)

Definition readArray (a : ref) : M (list ref) :=
  fun h =>
    match nth_error (arrays h) a with
    | Some l => Some (l, h)
    | None => None
    end.

Definition newArray (l : list ref) : M ref :=
  fun h => Some (List.length (arrays h), mk (objects h) (arrays h ++ [l])).

Definition writeArray (a : ref) (l : list ref) : M unit :=
  fun h =>
    match nth_error (arrays h) a with
    | Some _ =>
        Some (tt, mk (objects h)
                     (firstn a (arrays h) ++ l :: skipn (S a) (arrays h)))
    | None => None
    end.

Definition readObject (r : ref) : M Comment :=
  fun h =>
    match commentAt h r with
    | Some c => Some (c, h)
    | None => None
    end.

Definition newObject (o : object) : M ref :=
  fun h => Some (List.length (objects h), mk (objects h ++ [o]) (arrays h)).

(** *** The array methods the panel calls *)

Fixpoint filterRefs (p : Comment -> bool) (l : list ref) : M (list ref) :=
  match l with
  | [] => ret []
  | r :: l' =>
      c <- readObject r ;;
      rest <- filterRefs p l' ;;
      ret (if p c then r :: rest else rest)
  end.

(** [array.filter(p)] *)
Definition arrayFilter (p : Comment -> bool) (a : ref) : M ref :=
  l <- readArray a ;;
  kept <- filterRefs p l ;;
  newArray kept.

Fixpoint insertRef (cmp : Comment -> Comment -> Z) (r : ref) (cr : Comment)
    (l : list ref) : M (list ref) :=
  match l with
  | [] => ret [r]
  | y :: l' =>
      cy <- readObject y ;;
      if cmp cr cy <=? 0 then ret (r :: y :: l')
      else (rest <- insertRef cmp r cr l' ;; ret (y :: rest))
  end.

Fixpoint sortRefs (cmp : Comment -> Comment -> Z) (l : list ref)
    : M (list ref) :=
  match l with
  | [] => ret []
  | r :: l' =>
      sorted <- sortRefs cmp l' ;;
      cr <- readObject r ;;
      insertRef cmp r cr sorted
  end.

(** [array.sort(cmp)]: the array itself is overwritten and returned. *)
Definition arraySort (cmp : Comment -> Comment -> Z) (a : ref) : M ref :=
  l <- readArray a ;;
  sorted <- sortRefs cmp l ;;
  _ <- writeArray a sorted ;;
  ret a.

Fixpoint findIndexRefs (p : Comment -> bool) (i : Z) (l : list ref) : M Z :=
  match l with
  | [] => ret (-1)
  | r :: l' =>
      c <- readObject r ;;
      if p c then ret i else findIndexRefs p (i + 1) l'
  end.

(** [array.findIndex(p)] *)
Definition arrayFindIndex (p : Comment -> bool) (a : ref) : M Z :=
  l <- readArray a ;;
  findIndexRefs p 0 l.

Fixpoint mapRefs (f : ref -> M ref) (l : list ref) : M (list ref) :=
  match l with
  | [] => ret []
  | r :: l' =>
      x <- f r ;;
      xs <- mapRefs f l' ;;
      ret (x :: xs)
  end.

(** [array.map(f)] *)
Definition arrayMap (f : ref -> M ref) (a : ref) : M ref :=
  l <- readArray a ;;
  out <- mapRefs f l ;;
  newArray out.

(** [array.length] *)
Definition arrayLength (a : ref) : M nat :=
  l <- readArray a ;;
  ret (List.length l).

End StoreMonad.

(** The derivation functions, over the store. *)
Module OnStore.
Import Store StoreMonad.

Section Deriver.
Variable localeCompare : string -> string -> Z.

Definition getTopLevelComments (comments : ref)
    (searchTerm selectedCommentType : string) (filters : CommentFilters.t)
    (sortBy : string) : M ref :=
  filteredComments <- arrayFilter noParent comments ;;
  filteredComments <-
    (if truthy searchTerm
     then arrayFilter (matchesSearch searchTerm) filteredComments
     else ret filteredComments) ;;
  filteredComments <-
    (if String.eqb selectedCommentType "public"
     then arrayFilter (fun c => negb (isInternal c)) filteredComments
     else if String.eqb selectedCommentType "internal"
     then arrayFilter isInternal filteredComments
     else ret filteredComments) ;;
  filteredComments <-
    (if CommentFilters.attachments filters
     then arrayFilter hasAttachments filteredComments
     else ret filteredComments) ;;
  sortedComments <-
    arraySort (comparator localeCompare sortBy) filteredComments ;;
  anchored <-
    arrayFilter (fun c => noParent c && (0 <=? timestamp c)) comments ;;
  allTopLevelByTimestamp <- arraySort byTimestamp anchored ;;
  arrayMap
    (fun r =>
       c <- readObject r ;;
       i <- arrayFindIndex (fun d => String.eqb (id d) (id c))
              allTopLevelByTimestamp ;;
       newObject (ONumbered {| comment := c; commentNumber := i + 1 |}))
    sortedComments.

Definition getReplies (comments : ref) (parentId : string) : M ref :=
  arrayFilter (parentIs parentId) comments.

Definition getCommentCounts (comments : ref) : M CommentCounts :=
  topLevel <- arrayFilter noParent comments ;;
  n <- arrayLength topLevel ;;
  publicComments <- arrayFilter (fun c => negb (isInternal c)) topLevel ;;
  np <- arrayLength publicComments ;;
  internalComments <- arrayFilter isInternal topLevel ;;
  ni <- arrayLength internalComments ;;
  ret {| all := n; public := np; internal := ni |}.
End Deriver.

End OnStore.

(** ** Vocabulary of the specification *)

(** Steps 1 to 4 of the derivation as one predicate on a comment. *)
Definition passesSearch (searchTerm : string) (c : Comment) : bool :=
  if truthy searchTerm then matchesSearch searchTerm c else true.

Definition passesType (selectedCommentType : string) (c : Comment) : bool :=
  if String.eqb selectedCommentType "public" then negb (isInternal c)
  else if String.eqb selectedCommentType "internal" then isInternal c
  else true.

Definition passesAdvanced (filters : CommentFilters.t) (c : Comment) : bool :=
  if CommentFilters.attachments filters then hasAttachments c else true.

Definition visible (searchTerm selectedCommentType : string)
    (filters : CommentFilters.t) (c : Comment) : bool :=
  noParent c && passesSearch searchTerm c
  && passesType selectedCommentType c && passesAdvanced filters c.

(** The comments of a view, without their numbers. *)
Definition commentsOf (view : list NumberedComment) : list Comment :=
  map comment view.

(** [SelectedInOrder P l r]: [r] is made of exactly the elements of [l]
    that satisfy [P], each as often and in the order in which [l] has
    them. *)
Inductive SelectedInOrder (A : Type) (P : A -> Prop)
    : list A -> list A -> Prop :=
| sel_nil : SelectedInOrder P [] []
| sel_keep x l r : P x -> SelectedInOrder P l r ->
    SelectedInOrder P (x :: l) (x :: r)
| sel_drop x l r : ~ P x -> SelectedInOrder P l r ->
    SelectedInOrder P (x :: l) r.

(** What the ECMAScript specification asks of a comparator for the result
    of [sort] to be determined: the signs are antisymmetric and "not after"
    is transitive. *)
Definition ConsistentComparator (A : Type) (cmp : A -> A -> Z) : Prop :=
  (forall a b, Z.sgn (cmp b a) = - Z.sgn (cmp a b)) /\
  (forall a b c, cmp a b <= 0 -> cmp b c <= 0 -> cmp a c <= 0).

(** A collation to run the development with: comparison by code units. *)
Fixpoint codeUnitCompare (a b : string) : Z :=
  match a, b with
  | EmptyString, EmptyString => 0
  | EmptyString, String _ _ => -1
  | String _ _, EmptyString => 1
  | String x a', String y b' =>
      let d := Z.of_nat (nat_of_ascii x) - Z.of_nat (nat_of_ascii y) in
      if d =? 0 then codeUnitCompare a' b' else Z.sgn d
  end.

(** The thread view that the panel renders: every comment of the view,
    followed by the replies looked up for each of them. *)
Definition threadUnion (comments : list Comment)
    (view : list NumberedComment) : list Comment :=
  commentsOf view
  ++ flat_map (fun e => getReplies comments (id (comment e))) view.

(** Every reply names a top-level comment of the collection as parent. *)
Definition repliesResolve (comments : list Comment) : Prop :=
  forall r, In r comments -> noParent r = false ->
    exists p, In p comments /\ noParent p = true /\ parentId r = Some (id p).

(** The filter state the panel starts with, and the one with only the
    attachments toggle set. *)
Definition noFilters : CommentFilters.t :=
  CommentFilters.mk false false false false false false.

(** Scenario A of the specification. *)
Definition comment1 (T1 : Z) : Comment :=
  {| id := "1"; parentId := None; text := "hello"; author := "Bob";
     createdAt := T1; timestamp := 5; attachments := Some [];
     hasDrawing := false |}.

Definition comment2 (T2 : Z) : Comment :=
  {| id := "2"; parentId := None; text := "internal note"; author := "Amy";
     createdAt := T2; timestamp := 2; attachments := Some [];
     hasDrawing := false |}.

Definition scenarioA (T1 T2 : Z) : list Comment := [comment1 T1; comment2 T2].

(** Further sample comments: a general comment, a reply to comment 1 and a
    comment with one attachment. *)
Definition comment3 : Comment :=
  {| id := "3"; parentId := None; text := "general"; author := "Cat";
     createdAt := 30; timestamp := -1; attachments := None;
     hasDrawing := false |}.

Definition reply4 : Comment :=
  {| id := "4"; parentId := Some "1"; text := "agreed"; author := "Amy";
     createdAt := 40; timestamp := 5; attachments := None;
     hasDrawing := false |}.

Definition comment5 : Comment :=
  {| id := "5"; parentId := None; text := "see file"; author := "bob";
     createdAt := 50; timestamp := 5;
     attachments := Some [ {| url := "blob:1"; type := "image/png";
                              name := "frame.png" |} ];
     hasDrawing := true |}.

Definition sampleComments : list Comment :=
  [comment1 10; comment2 20; comment3; reply4; comment5].



(** ** More of the string and array library

    The other built-ins that the components call. Separators, padding and
    searched characters are single code units, as at every call site. *)

Module JsLib.

(** The code units below 256 that [trim] removes: TAB, LF, VT, FF, CR,
    SPACE and NO-BREAK SPACE. *)
Definition isWhiteSpace (c : ascii) : bool :=
  let n := nat_of_ascii c in
  Nat.eqb n 9 || Nat.eqb n 10 || Nat.eqb n 11 || Nat.eqb n 12
  || Nat.eqb n 13 || Nat.eqb n 32 || Nat.eqb n 160.

Fixpoint trimStart (s : string) : string :=
  match s with
  | EmptyString => EmptyString
  | String c r => if isWhiteSpace c then trimStart r else s
  end.

Fixpoint trimEnd (s : string) : string :=
  match s with
  | EmptyString => EmptyString
  | String c r =>
      match trimEnd r with
      | EmptyString =>
          if isWhiteSpace c then EmptyString else String c EmptyString
      | String d r' => String c (String d r')
      end
  end.

(** [s.trim()] *)
Definition trim (s : string) : string := trimEnd (trimStart s).

(** [s.length] *)
Definition length (s : string) : Z := Z.of_nat (String.length s).

(** [s.split(sep)]: never empty; [""] for the empty string. *)
Fixpoint split (sep : ascii) (s : string) : list string :=
  match s with
  | EmptyString => [EmptyString]
  | String c r =>
      if Ascii.eqb c sep then EmptyString :: split sep r
      else match split sep r with
           | [] => [String c EmptyString]
           | h :: t => String c h :: t
           end
  end.

(** [array.pop()] read for its result: the last element, [None] (undefined)
    on the empty array. *)
Fixpoint pop (A : Type) (l : list A) : option A :=
  match l with
  | [] => None
  | [x] => Some x
  | _ :: r => pop r
  end.

(** [s.lastIndexOf(c)]: the last position of [c], or -1. *)
Fixpoint lastIndexOfFrom (i : Z) (c : ascii) (s : string) : Z :=
  match s with
  | EmptyString => -1
  | String d r =>
      let j := lastIndexOfFrom (i + 1) c r in
      if 0 <=? j then j else if Ascii.eqb d c then i else -1
  end.

Definition lastIndexOf (c : ascii) (s : string) : Z := lastIndexOfFrom 0 c s.

(** [s.substring(start, end)]: both bounds are clamped to [0, s.length] and
    swapped when the first exceeds the second. *)
Definition substring (s : string) (start stop : Z) : string :=
  let clamp x := Z.max 0 (Z.min x (length s)) in
  let a := Z.min (clamp start) (clamp stop) in
  let b := Z.max (clamp start) (clamp stop) in
  String.substring (Z.to_nat a) (Z.to_nat (b - a)) s.

(** [Number.MAX_SAFE_INTEGER], 2^53 - 1: the integers up to it in absolute
    value are numbers of the language, exactly. *)
Definition maxSafeInteger : Z := 9007199254740991.

(** [n.toString()] for a safe integer [n], which is printed by its decimal
    digits. Numbers beyond [maxSafeInteger], which are rounded and from
    1e21 on printed with an exponent, and numbers with a fraction are not
    modelled: a statement about the digits printed bounds its number. *)
Definition numberToString (n : Z) : string :=
  NilZero.string_of_int (Z.to_int n).

Fixpoint replicate (n : nat) (c : ascii) : string :=
  match n with
  | O => EmptyString
  | S k => String c (replicate k c)
  end.

(** [s.padStart(target, pad)] *)
Definition padStart (s : string) (target : nat) (pad : ascii) : string :=
  replicate (target - String.length s) pad ++ s.

(** [array.join(sep)] *)
Fixpoint join (sep : string) (l : list string) : string :=
  match l with
  | [] => EmptyString
  | [x] => x
  | x :: r => x ++ sep ++ join sep r
  end.

(** [array.filter((x, i) => p(x, i))], the index counted from [i]. *)
Fixpoint filterFrom (A : Type) (i : Z) (p : A -> Z -> bool) (l : list A)
    : list A :=
  match l with
  | [] => []
  | x :: r => if p x i then x :: filterFrom (i + 1) p r
              else filterFrom (i + 1) p r
  end.

Definition filterIndexed (A : Type) (p : A -> Z -> bool) (l : list A)
    : list A :=
  filterFrom 0 p l.

(** [array[index]]: [None] (undefined) outside the array. *)
Definition at_ (A : Type) (l : list A) (index : Z) : option A :=
  if index <? 0 then None else nth_error l (Z.to_nat index).

End JsLib.

(** ** The rest of the comment panel *)

Module Panel.

(** The state hooks of [CommentPanel]. *)
Record State := {
  replyingTo : option string;
  replyText : string;
  searchTerm : string;
  selectedCommentType : string;
  sortBy : string;
  filters : CommentFilters.t;
  selectedAttachment : option AttachmentWithType;
  selectedAttachmentIndex : Z;
  isAttachmentViewerOpen : bool
}.

(** The initial values given to [useState]. *)
Definition initial : State :=
  {| replyingTo := None; replyText := ""; searchTerm := "";
     selectedCommentType := "all"; sortBy := "timecode";
     filters := CommentFilters.mk false false false false false false;
     selectedAttachment := None; selectedAttachmentIndex := 0;
     isAttachmentViewerOpen := false |}.

Inductive LucideIcon := ImageIcon | Video | Music | FileText | Archive | File.

(** An element [<Icon size={size} className="..." />]. *)
Record IconElement := {
  icon : LucideIcon;
  size : Z;
  className : string
}.

Definition getFileTypeIcon (attachment : AttachmentWithType) (size : Z)
    : IconElement :=
  let type := type attachment in
  if startsWith type "image/"
  then {| icon := ImageIcon; size := size; className := "text-blue-400" |}
  else if startsWith type "video/"
  then {| icon := Video; size := size; className := "text-purple-400" |}
  else if startsWith type "audio/"
  then {| icon := Music; size := size; className := "text-green-400" |}
  else if String.eqb type "application/pdf"
  then {| icon := FileText; size := size; className := "text-red-400" |}
  else if includes type "text" || includes type "document"
  then {| icon := FileText; size := size; className := "text-blue-400" |}
  else if includes type "zip" || includes type "rar"
          || includes type "archive"
  then {| icon := Archive; size := size; className := "text-orange-400" |}
  else {| icon := File; size := size; className := "text-gray-400" |}.

Definition truncateFileName (name : string) (maxLength : Z) : string :=
  if JsLib.length name <=? maxLength then name
  else
    let extension := JsLib.pop (JsLib.split "." name) in
    let nameWithoutExt :=
      JsLib.substring name 0 (JsLib.lastIndexOf "." name) in
    let maxNameLength :=
      maxLength - (match extension with
                   | Some e => if truthy e then JsLib.length e + 4 else 3
                   | None => 3
                   end) in
    match extension with
    | Some e =>
        if truthy e && (maxNameLength <? JsLib.length nameWithoutExt)
        then JsLib.substring nameWithoutExt 0 maxNameLength ++ "..." ++ e
        else JsLib.substring name 0 (maxLength - 3) ++ "..."
    | None => JsLib.substring name 0 (maxLength - 3) ++ "..."
    end.

(** [formatTime] on a whole number of seconds that is a safe integer. On
    such a number the source's arithmetic on doubles is exact: the quotient
    by 60 is below 2^48, where a double is within 1/64 of the real quotient,
    less than the 1/60 that separates it from the next integer, so
    [Math.floor] gives the floor of the exact quotient, and [%] gives the
    exact remainder, which has the sign of [seconds]. Seconds with a
    fraction and seconds beyond [maxSafeInteger] are not modelled.
    [CommentInput] and the review interface define the same function. *)
Definition formatTime (seconds : Z) : string :=
  let mins := seconds / 60 in
  let secs := Z.rem seconds 60 in
  JsLib.numberToString mins ++ ":"
  ++ JsLib.padStart (JsLib.numberToString secs) 2 "0".

Section Handlers.
Variable localeCompare : string -> string -> Z.

(** [getTopLevelComments()], [getReplies(id)] and [getCommentCounts()] as
    the component calls them: on its [comments] prop and its state. *)
Definition getTopLevelComments (comments : list Comment) (st : State)
    : list NumberedComment :=
  getTopLevelComments localeCompare comments (searchTerm st)
    (selectedCommentType st) (filters st) (sortBy st).

Definition handleClearFilters (st : State) : State :=
  {| replyingTo := replyingTo st; replyText := replyText st;
     searchTerm := "";
     selectedCommentType := "all"; sortBy := "timecode";
     filters := CommentFilters.mk false false false false false false;
     selectedAttachment := selectedAttachment st;
     selectedAttachmentIndex := selectedAttachmentIndex st;
     isAttachmentViewerOpen := isAttachmentViewerOpen st |}.

(** [handleReply(parentId)]: the call of [onReplyComment], if any, and the
    next state. *)
Definition handleReply (parentId : string) (st : State)
    : option (string * string) * State :=
  if truthy (JsLib.trim (replyText st))
  then (Some (parentId, JsLib.trim (replyText st)),
        {| replyingTo := None; replyText := "";
           searchTerm := searchTerm st;
           selectedCommentType := selectedCommentType st;
           sortBy := sortBy st; filters := filters st;
           selectedAttachment := selectedAttachment st;
           selectedAttachmentIndex := selectedAttachmentIndex st;
           isAttachmentViewerOpen := isAttachmentViewerOpen st |})
  else (None, st).

(** [handleCopyComments]: the text given to [navigator.clipboard.writeText]. *)
Definition handleCopyComments (comments : list Comment) (st : State)
    : string :=
  let visibleComments := getTopLevelComments comments st in
  JsLib.join (String (ascii_of_nat 10) "")
    (map (fun c =>
            formatTime (timestamp (comment c)) ++ " - "
            ++ author (comment c) ++ ": " ++ text (comment c))
       visibleComments).

(** [createdAt.toISOString()], the host's rendering of a date. *)
Variable toISOString : Z -> string.

(** [handleExportComments]: the text of the CSV file offered for download. *)
Definition handleExportComments (comments : list Comment) (st : State)
    : string :=
  let visibleComments := getTopLevelComments comments st in
  let csvContent :=
    JsLib.join (String (ascii_of_nat 10) "")
      ("Timestamp,Author,Text,Created At"
       :: map (fun c =>
                 formatTime (timestamp (comment c)) ++ ","
                 ++ author (comment c) ++ ","
                 ++ String (ascii_of_nat 34) (text (comment c))
                 ++ String (ascii_of_nat 34) ","
                 ++ toISOString (createdAt (comment c)))
            visibleComments) in
  csvContent.

(** [handleCommentClick(comment, event)]: the timestamp passed to
    [onCommentClick], if any; [isInteractive] is what the DOM lookups on the
    event target give. *)
Definition handleCommentClick (c : Comment) (isInteractive : bool)
    : option Z :=
  if negb isInteractive && (0 <=? timestamp c) then Some (timestamp c)
  else None.

End Handlers.

End Panel.

(** ** The comment input *)

Module Input.

(** The state hooks of [CommentInput]. *)
Record State := {
  comment : string;
  attachments : list AttachmentWithType;
  isInternal : bool;
  attachTime : bool;
  showEmojiPicker : bool;
  showDrawingTools : bool;
  hasDrawing : bool
}.

(** An element [<span className="...">glyph</span>]; the glyphs are named
    after their characters. *)
Inductive Glyph :=
| FramedPicture | ClapperBoard | MusicalNote | PageFacingUp | Package | Memo.

Record SpanElement := {
  className : string;
  glyph : Glyph
}.

Definition getFileTypeIcon (attachment : AttachmentWithType) : SpanElement :=
  let type := type attachment in
  if startsWith type "image/"
  then {| className := "text-blue-400"; glyph := FramedPicture |}
  else if startsWith type "video/"
  then {| className := "text-purple-400"; glyph := ClapperBoard |}
  else if startsWith type "audio/"
  then {| className := "text-green-400"; glyph := MusicalNote |}
  else if String.eqb type "application/pdf"
  then {| className := "text-red-400"; glyph := PageFacingUp |}
  else if includes type "zip" || includes type "rar"
          || includes type "archive"
  then {| className := "text-orange-400"; glyph := Package |}
  else if includes type "text" || includes type "document"
  then {| className := "text-blue-400"; glyph := Memo |}
  else {| className := "text-gray-400"; glyph := PageFacingUp |}.

Definition setAttachments (l : list AttachmentWithType) (st : State) : State :=
  {| comment := comment st; attachments := l; isInternal := isInternal st;
     attachTime := attachTime st; showEmojiPicker := showEmojiPicker st;
     showDrawingTools := showDrawingTools st; hasDrawing := hasDrawing st |}.

(** [removeAttachment(index)]: the URLs passed to [URL.revokeObjectURL] and
    the next state; [None] is the TypeError raised when reading [url] of
    [undefined]. *)
Definition removeAttachment (index : Z) (st : State)
    : option (list string * State) :=
  match JsLib.at_ (attachments st) index with
  | None => None
  | Some removedAttachment =>
      Some (if startsWith (url removedAttachment) "blob:"
            then [url removedAttachment] else [],
            setAttachments
              (JsLib.filterIndexed (fun _ i => negb (i =? index))
                 (attachments st))
              st)
  end.

Section Browser.

(** The files of the file input and the browser that mints object URLs. *)
Variable File : Type.
Variables fileType fileName : File -> string.
Variable Browser : Type.
Variable createObjectURL : File -> Browser -> string * Browser.

(** [files.map(file => ({ url: URL.createObjectURL(file), ... }))] *)
Fixpoint newAttachments (files : list File) (b : Browser)
    : list AttachmentWithType * Browser :=
  match files with
  | [] => ([], b)
  | file :: rest =>
      let (u, b1) := createObjectURL file b in
      let (l, b2) := newAttachments rest b1 in
      ({| url := u; type := fileType file; name := fileName file |} :: l, b2)
  end.

Definition handleFileUpload (files : list File) (st : State) (b : Browser)
    : State * Browser :=
  let (l, b') := newAttachments files b in
  (setAttachments (attachments st ++ l) st, b').

End Browser.

End Input.

(** ** The video review interface *)

Module VideoReview.

#[warnings="-register-all"]
Inductive VideoComment := mkVideoComment {
  id : string;
  timestamp : Z;
  content : string;
  author : string;
  authorColor : string;
  createdAt : Z;
  resolved : option bool;
  replies : option (list VideoComment)
}.

(** Truthiness of the optional [resolved]. *)
Definition isResolved (c : VideoComment) : bool :=
  match resolved c with
  | Some b => b
  | None => false
  end.

(** The callback of [comments.filter] for the state [filter]. *)
Definition keeps (filter : string) (c : VideoComment) : bool :=
  if String.eqb filter "unresolved" then negb (isResolved c)
  else if String.eqb filter "resolved" then isResolved c
  else true.

Definition filteredComments (comments : list VideoComment) (filter : string)
    : list VideoComment :=
  JsArray.sort (fun a b => timestamp a - timestamp b)
    (List.filter (keeps filter) comments).

(** [n[0]]: the first code unit, or [None] (undefined) for the empty
    string. *)
Definition firstUnit (n : string) : option string :=
  match n with
  | EmptyString => None
  | String a _ => Some (String a EmptyString)
  end.

(** [array.join(sep)] on elements that may be undefined, which it writes as
    the empty string. *)
Definition joinElements (sep : string) (l : list (option string)) : string :=
  JsLib.join sep
    (map (fun o => match o with Some s => s | None => EmptyString end) l).

(** The text of the avatar:
    [comment.author.split(' ').map(n => n[0]).join('')]. *)
Definition initials (author : string) : string :=
  joinElements "" (map firstUnit (JsLib.split " " author)).

(** [formatRelativeTime(date)]; [now] is the clock read by [new Date()],
    both in milliseconds, and [toLocaleDateString] is the host's. *)
Definition formatRelativeTime (toLocaleDateString : Z -> string)
    (now date : Z) : string :=
  let diffMs := now - date in
  let diffMins := diffMs / 60000 in
  if diffMins <? 1 then "Just now"
  else if diffMins <? 60 then JsLib.numberToString diffMins ++ "m ago"
  else
    let diffHours := diffMins / 60 in
    if diffHours <? 24 then JsLib.numberToString diffHours ++ "h ago"
    else toLocaleDateString date.

End VideoReview.

(** ** More vocabulary *)

(** Every code unit of the string is white space. *)
Definition Blank (s : string) : Prop :=
  Forall (fun c => JsLib.isWhiteSpace c = true) (list_ascii_of_string s).

(** The decimal digit of a number below 10. *)
Definition digit (n : Z) : ascii := ascii_of_nat (48 + Z.to_nat n).

(** The line feed, which is the string that joins the copied lines. *)
Definition lineFeed : ascii := ascii_of_nat 10.

(** The row that [handleExportComments] writes for a listed comment. *)
Definition exportedRow (toISOString : Z -> string) (e : NumberedComment)
    : string :=
  Panel.formatTime (timestamp (comment e)) ++ ","
  ++ author (comment e) ++ ","
  ++ String (ascii_of_nat 34) (text (comment e))
  ++ String (ascii_of_nat 34) ","
  ++ toISOString (createdAt (comment e)).

(** The line that [handleCopyComments] writes for a listed comment. *)
Definition copiedLine (e : NumberedComment) : string :=
  Panel.formatTime (timestamp (comment e)) ++ " - "
  ++ author (comment e) ++ ": " ++ text (comment e).

(** A store with the sample comments in array 0. *)
Definition sampleStore : Store.t :=
  Store.mk (map Store.OComment sampleComments) [[0; 1; 2; 3; 4]%nat].

(** * Properties *)

(** ** Strings *)

Module JsStringFacts.

Lemma startsWith_spec s p :
  startsWith s p = true <-> exists t, s = p ++ t.
Proof.
  revert s; induction p as [|a p IH]; intros s; simpl.
  - split; [intros _; now exists s | reflexivity].
  - destruct s as [|b s].
    + split; [discriminate | intros [t Ht]; discriminate].
    + rewrite andb_true_iff, Ascii.eqb_eq, IH. split.
      * intros [-> [t ->]]. now exists t.
      * intros [t Ht]. injection Ht as -> ->. split; [reflexivity | now exists t].
Qed.

Lemma includes_spec s sub : includes s sub = true <-> Contains s sub.
Proof.
  unfold Contains. split.
  - induction s as [|c s IH]; simpl; rewrite orb_true_iff.
    + intros [H | H]; [| discriminate].
      apply startsWith_spec in H as [t Ht]. now exists "", t.
    + intros [H | H].
      * apply startsWith_spec in H as [t Ht]. now exists "", t.
      * destruct (IH H) as (pre & post & ->). now exists (String c pre), post.
  - intros (pre & post & ->). induction pre as [|c pre IH].
    + assert (H : startsWith (sub ++ post) sub = true)
        by (apply startsWith_spec; now exists post).
      simpl. destruct (sub ++ post); simpl; rewrite H; reflexivity.
    + simpl. rewrite IH. apply orb_true_r.
Qed.

Lemma includes_empty s : includes s "" = true.
Proof. apply includes_spec. now exists "", s. Qed.







Lemma truthy_false s : truthy s = false <-> s = "".
Proof. destruct s; simpl; split; congruence. Qed.

End JsStringFacts.
Import JsStringFacts.

(** ** Arrays: [findIndex] and the stable sort *)

Module JsArrayFacts.
Import JsArray.

Section FindIndex.
Variable A : Type.
Variable p : A -> bool.

Lemma findIndexFrom_none i l :
  (forall x, In x l -> p x = false) -> findIndexFrom i p l = -1.
Proof.
  revert i; induction l as [|x l IH]; intros i H; simpl; [reflexivity |].
  rewrite (H x (or_introl eq_refl)). apply IH.
  intros y Hy. apply H. now right.
Qed.

Lemma findIndexFrom_some i l x :
  In x l -> p x = true ->
  exists k y,
    findIndexFrom i p l = i + Z.of_nat k /\
    nth_error l k = Some y /\ p y = true /\
    forall j z, (j < k)%nat -> nth_error l j = Some z -> p z = false.
Proof.
  revert i; induction l as [|a l IH]; intros i Hin Hp; [destruct Hin |].
  simpl. destruct (p a) eqn:Ha.
  - exists 0%nat, a. repeat split; auto; [lia | intros j z Hj; lia].
  - destruct Hin as [-> | Hin]; [congruence |].
    destruct (IH (i + 1) Hin Hp) as (k & y & Hk & Hn & Hy & Hlt).
    exists (S k), y. repeat split; auto; [lia |].
    intros [|j] z Hj Hz; simpl in Hz.
    + now injection Hz as <-.
    + apply (Hlt j); [lia | assumption].
Qed.
End FindIndex.

Section Sort.
Variable A : Type.
Variable cmp : A -> A -> Z.

Lemma insert_perm x l : Permutation (insert cmp x l) (x :: l).
Proof.
  induction l as [|y l IH]; simpl; [reflexivity |].
  destruct (cmp x y <=? 0); [reflexivity |].
  rewrite IH. apply perm_swap.
Qed.

Lemma sort_perm l : Permutation (sort cmp l) l.
Proof.
  induction l as [|x l IH]; simpl; [reflexivity |].
  rewrite insert_perm. now constructor.
Qed.

Lemma sort_In l x : In x (sort cmp l) <-> In x l.
Proof.
  split; apply Permutation_in;
    [apply sort_perm | apply Permutation_sym, sort_perm].
Qed.

Lemma sort_length l : List.length (sort cmp l) = List.length l.
Proof. apply Permutation_length, sort_perm. Qed.

(** Stability: a class of elements that the comparator never puts one
    strictly after another keeps the order it had in the input. *)
Section Stable.
Variable P : A -> bool.
Hypothesis P_tied : forall x y, P x = true -> P y = true -> cmp x y <= 0.

Lemma insert_filter x l :
  filter P (insert cmp x l) = filter P (x :: l).
Proof.
  induction l as [|y l IH]; [reflexivity |].
  simpl insert. destruct (cmp x y <=? 0) eqn:Hc; [reflexivity |].
  apply Z.leb_gt in Hc. simpl in *. rewrite IH.
  destruct (P x) eqn:Hx, (P y) eqn:Hy; try reflexivity.
  specialize (P_tied Hx Hy). lia.
Qed.

Lemma sort_filter l : filter P (sort cmp l) = filter P l.
Proof.
  induction l as [|x l IH]; [reflexivity |].
  simpl sort. rewrite insert_filter. simpl. now rewrite IH.
Qed.
End Stable.

(** Sortedness, for a comparator that is a total preorder. *)
Section Sorted.
Hypothesis cmp_total : forall x y, cmp x y <= 0 \/ cmp y x <= 0.
Hypothesis cmp_trans :
  forall x y z, cmp x y <= 0 -> cmp y z <= 0 -> cmp x z <= 0.

Let le (x y : A) : Prop := cmp x y <= 0.

Lemma insert_sorted x l :
  StronglySorted le l -> StronglySorted le (insert cmp x l).
Proof.
  induction 1 as [|y l Hs IH Hall]; simpl.
  - repeat constructor.
  - destruct (cmp x y <=? 0) eqn:Hc.
    + apply Z.leb_le in Hc. constructor; [now constructor |].
      constructor; [exact Hc |].
      eapply Forall_impl; [| exact Hall].
      intros z Hz. now apply cmp_trans with y.
    + apply Z.leb_gt in Hc. constructor; [exact IH |].
      apply Forall_forall. intros z Hz.
      apply (Permutation_in _ (insert_perm x l)) in Hz.
      destruct Hz as [<- | Hz].
      * destruct (cmp_total x y); [lia | assumption].
      * rewrite Forall_forall in Hall. now apply Hall.
Qed.

Lemma sort_sorted l : StronglySorted le (sort cmp l).
Proof.
  induction l as [|x l IH]; simpl; [constructor | now apply insert_sorted].
Qed.
End Sorted.
End Sort.

End JsArrayFacts.

(** ** The comparators *)

Lemma byTimestamp_total a b : byTimestamp a b <= 0 \/ byTimestamp b a <= 0.
Proof. unfold byTimestamp; lia. Qed.

Lemma byTimestamp_trans a b c :
  byTimestamp a b <= 0 -> byTimestamp b c <= 0 -> byTimestamp a c <= 0.
Proof. unfold byTimestamp; lia. Qed.

Lemma ConsistentComparator_total A (cmp : A -> A -> Z) :
  ConsistentComparator cmp -> forall a b, cmp a b <= 0 \/ cmp b a <= 0.
Proof. intros [Hs _] a b. specialize (Hs a b). lia. Qed.

Lemma ConsistentComparator_tied A (cmp : A -> A -> Z) :
  ConsistentComparator cmp ->
  forall k a b, cmp a k = 0 -> cmp b k = 0 -> cmp a b <= 0.
Proof.
  intros [Hs Ht] k a b Ha Hb. apply Ht with k; [lia |].
  specialize (Hs b k). lia.
Qed.

Lemma codeUnitCompare_sgn a b :
  Z.sgn (codeUnitCompare b a) = - Z.sgn (codeUnitCompare a b).
Proof.
  revert b; induction a as [|x a IH]; intros [|y b]; simpl; try reflexivity.
  destruct (Z.eqb_spec (Z.of_nat (nat_of_ascii x) - Z.of_nat (nat_of_ascii y)) 0);
    destruct (Z.eqb_spec (Z.of_nat (nat_of_ascii y) - Z.of_nat (nat_of_ascii x)) 0);
    try lia; try apply IH.
  all: try (rewrite !Z.sgn_sgn; lia).
Qed.

Lemma codeUnitCompare_trans a b c :
  codeUnitCompare a b <= 0 -> codeUnitCompare b c <= 0 ->
  codeUnitCompare a c <= 0.
Proof.
  revert b c; induction a as [|x a IH]; intros [|y b] [|z c]; simpl;
    try lia.
  destruct (Z.eqb_spec (Z.of_nat (nat_of_ascii x) - Z.of_nat (nat_of_ascii y)) 0);
    destruct (Z.eqb_spec (Z.of_nat (nat_of_ascii y) - Z.of_nat (nat_of_ascii z)) 0);
    destruct (Z.eqb_spec (Z.of_nat (nat_of_ascii x) - Z.of_nat (nat_of_ascii z)) 0);
    try lia; try apply IH.
Qed.

Lemma codeUnitCompare_consistent : ConsistentComparator codeUnitCompare.
Proof.
  split; [intros a b; apply codeUnitCompare_sgn | apply codeUnitCompare_trans].
Qed.

(** ** Lists *)

Lemma filter_filter_andb A (p q : A -> bool) l :
  filter q (filter p l) = filter (fun x => p x && q x) l.
Proof.
  induction l as [|x l IH]; simpl; [reflexivity |].
  destruct (p x); simpl; [destruct (q x) |]; now rewrite IH.
Qed.

Lemma NoDup_map_eq A B (f : A -> B) l a b :
  NoDup (map f l) -> In a l -> In b l -> f a = f b -> a = b.
Proof.
  induction l as [|x l IH]; simpl; [intros _ [] |].
  intros Hnd Ha Hb Hf. inversion Hnd as [|? ? Hx Hl]; subst.
  destruct Ha as [-> | Ha], Hb as [-> | Hb]; auto.
  - exfalso. apply Hx. rewrite Hf. now apply in_map.
  - exfalso. apply Hx. rewrite <- Hf. now apply in_map.
Qed.

(** ** The view as a whole *)

Section ViewFacts.
Variable localeCompare : string -> string -> Z.

Local Abbreviation view := (getTopLevelComments localeCompare).
Local Abbreviation cmpOf := (comparator localeCompare).

(** The successive filters amount to the one predicate [visible]. *)
Lemma view_eq cs s t f o :
  view cs s t f o =
  map (fun c => {| comment := c; commentNumber := numberOf cs c |})
    (JsArray.sort (cmpOf o) (filter (visible s t f) cs)).
Proof.
  unfold getTopLevelComments. do 2 f_equal.
  unfold visible, passesSearch, passesType, passesAdvanced.
  destruct (truthy s), (String.eqb t "public"), (String.eqb t "internal"),
    (CommentFilters.attachments f);
    rewrite ?filter_filter_andb; apply filter_ext; intros c;
    rewrite ?andb_true_r, ?andb_assoc; reflexivity.
Qed.

Lemma commentsOf_view cs s t f o :
  commentsOf (view cs s t f o) =
  JsArray.sort (cmpOf o) (filter (visible s t f) cs).
Proof.
  unfold commentsOf. rewrite view_eq, map_map. simpl. apply map_id.
Qed.

Lemma In_commentsOf_view cs s t f o c :
  In c (commentsOf (view cs s t f o)) <->
  In c cs /\ visible s t f c = true.
Proof.
  rewrite commentsOf_view, JsArrayFacts.sort_In. apply filter_In.
Qed.

Lemma In_view cs s t f o e :
  In e (view cs s t f o) <->
  In (comment e) cs /\ visible s t f (comment e) = true /\
  commentNumber e = numberOf cs (comment e).
Proof.
  rewrite view_eq, in_map_iff. split.
  - intros (c & <- & Hc). simpl.
    apply JsArrayFacts.sort_In, filter_In in Hc. tauto.
  - intros (Hin & Hv & Hn). exists (comment e). split.
    + destruct e as [c n]; simpl in *. now subst.
    + apply JsArrayFacts.sort_In, filter_In. tauto.
Qed.

Lemma numberOf_id cs c d : id c = id d -> numberOf cs c = numberOf cs d.
Proof. unfold numberOf. now intros ->. Qed.

Lemma In_allTopLevelByTimestamp cs c :
  In c (allTopLevelByTimestamp cs) <->
  In c cs /\ noParent c = true /\ 0 <= timestamp c.
Proof.
  unfold allTopLevelByTimestamp.
  rewrite JsArrayFacts.sort_In, filter_In, andb_true_iff, Z.leb_le. tauto.
Qed.

End ViewFacts.

Lemma StronglySorted_impl A (R R' : A -> A -> Prop) l :
  (forall a b, R a b -> R' a b) -> StronglySorted R l -> StronglySorted R' l.
Proof.
  intros HR. induction 1 as [|x l Hs IH Hall]; constructor; [exact IH |].
  eapply Forall_impl; [| exact Hall]. intros b. apply HR.
Qed.

Lemma isInternal_spec c : isInternal c = true <-> Contains (text c) "internal".
Proof. apply includes_spec. Qed.



Lemma hasAttachments_spec c :
  hasAttachments c = true <->
  exists l, attachments c = Some l /\ (1 <= List.length l)%nat.
Proof.
  unfold hasAttachments. destruct (attachments c) as [l|].
  - rewrite Nat.ltb_lt. split.
    + intros H. exists l. split; [reflexivity | lia].
    + intros (l' & Hl & H). injection Hl as <-. lia.
  - split; [discriminate | intros (l & Hl & _); discriminate].
Qed.

(** ** Comment numbers *)

(** C1. Every comment of the view carries as its number one plus the
    position, in the list of the time-anchored top-level comments of the
    whole collection sorted by ascending timestamp, of the first entry with
    its id. That list is a sorted permutation of the time-anchored top-level
    comments, whatever the search, the filters and the sort option are. For
    a time-anchored comment the entry exists (and, ids being unique, is the
    comment itself); a general comment gets 0, which the panel shows as the
    placeholder, when ids are unique. A comment with the same id has the
    same number in the view of any other search term, type filter, advanced
    filters and sort option. *)
Theorem C1_comment_numbers
    (localeCompare : string -> string -> Z) (cs : list Comment)
    (s t : string) (f : CommentFilters.t) (o : string)
    (s' t' : string) (f' : CommentFilters.t) (o' : string)
    (e : NumberedComment) :
  In e (getTopLevelComments localeCompare cs s t f o) ->
  Permutation (allTopLevelByTimestamp cs)
    (filter (fun c => noParent c && (0 <=? timestamp c)) cs)
  /\ StronglySorted (fun a b => timestamp a <= timestamp b)
       (allTopLevelByTimestamp cs)
  /\ (0 <= timestamp (comment e) ->
      exists k c,
        commentNumber e = Z.of_nat k + 1 /\
        nth_error (allTopLevelByTimestamp cs) k = Some c /\
        id c = id (comment e) /\
        (forall j d, (j < k)%nat ->
           nth_error (allTopLevelByTimestamp cs) j = Some d ->
           id d <> id (comment e)) /\
        (NoDup (map id cs) -> c = comment e))
  /\ (timestamp (comment e) < 0 -> NoDup (map id cs) -> commentNumber e = 0)
  /\ (forall e',
        In e' (getTopLevelComments localeCompare cs s' t' f' o') ->
        id (comment e') = id (comment e) ->
        commentNumber e' = commentNumber e).
Proof.
  intros He. apply In_view in He as (Hin & Hv & Hn).
  assert (Htop : noParent (comment e) = true).
  { unfold visible in Hv. rewrite !andb_true_iff in Hv. tauto. }
  split; [apply JsArrayFacts.sort_perm |].
  split.
  { apply StronglySorted_impl with (R := fun a b => byTimestamp a b <= 0).
    - unfold byTimestamp. intros a b. lia.
    - apply JsArrayFacts.sort_sorted;
        [apply byTimestamp_total | apply byTimestamp_trans]. }
  split; [| split].
  - intros Hts.
    assert (Hr : In (comment e) (allTopLevelByTimestamp cs))
      by (apply In_allTopLevelByTimestamp; tauto).
    destruct (JsArrayFacts.findIndexFrom_some
                (fun d => String.eqb (id d) (id (comment e))) 0 _ _ Hr
                (String.eqb_refl _)) as (k & c & Hk & Hnth & Hc & Hlt).
    exists k, c. apply String.eqb_eq in Hc.
    split; [rewrite Hn; unfold numberOf, JsArray.findIndex; lia |].
    split; [exact Hnth |]. split; [exact Hc |]. split.
    + intros j d Hj Hd. apply String.eqb_neq. now apply (Hlt j).
    + intros Hnd. apply (NoDup_map_eq id cs) ; auto.
      apply nth_error_In in Hnth.
      now apply In_allTopLevelByTimestamp in Hnth.
  - intros Hts Hnd. rewrite Hn. unfold numberOf, JsArray.findIndex.
    rewrite JsArrayFacts.findIndexFrom_none; [reflexivity |].
    intros d Hd. apply String.eqb_neq. intros Hid.
    apply In_allTopLevelByTimestamp in Hd as (Hd & _ & Hdts).
    assert (d = comment e) by (apply (NoDup_map_eq id cs); auto).
    subst d. lia.
  - intros e' He' Hid. apply In_view in He' as (_ & _ & Hn').
    rewrite Hn, Hn'. now apply numberOf_id.
Qed.

Lemma C1_comment_numbers_witness :
  In {| comment := comment2 20; commentNumber := 1 |}
     (getTopLevelComments codeUnitCompare sampleComments "" "all" noFilters
        "timecode")
  /\ (forall e',
        In e' (getTopLevelComments codeUnitCompare sampleComments "" "internal"
                 noFilters "newest") ->
        id (comment e') = "2" -> commentNumber e' = 1).
Proof.
  assert (H : In {| comment := comment2 20; commentNumber := 1 |}
                (getTopLevelComments codeUnitCompare sampleComments "" "all"
                   noFilters "timecode"))
    by (vm_compute; auto).
  split; [exact H |].
  apply (C1_comment_numbers codeUnitCompare sampleComments "" "all" noFilters
           "timecode" "" "internal" noFilters "newest" _ H).
Defined.

(** ** Order of the view *)

Section SortedView.
Variable localeCompare : string -> string -> Z.
Hypothesis localeCompare_consistent : ConsistentComparator localeCompare.

Variables (cs : list Comment) (s t : string) (f : CommentFilters.t).

Local Abbreviation out o :=
  (commentsOf (getTopLevelComments localeCompare cs s t f o)).
Local Abbreviation kept := (filter (visible s t f) cs).

Lemma view_by_timestamp o :
  comparator localeCompare o = byTimestamp ->
  StronglySorted (fun a b => timestamp a <= timestamp b) (out o) /\
  forall k, filter (fun c => timestamp c =? k) (out o)
            = filter (fun c => timestamp c =? k) kept.
Proof.
  intros Ho. rewrite commentsOf_view, Ho. split.
  - apply StronglySorted_impl with (R := fun a b => byTimestamp a b <= 0).
    + unfold byTimestamp. intros a b. lia.
    + apply JsArrayFacts.sort_sorted;
        [apply byTimestamp_total | apply byTimestamp_trans].
  - intros k. apply JsArrayFacts.sort_filter.
    intros x y Hx Hy. unfold byTimestamp. lia.
Qed.

Lemma view_by_oldest :
  StronglySorted (fun a b => createdAt a <= createdAt b) (out "oldest") /\
  forall k, filter (fun c => createdAt c =? k) (out "oldest")
            = filter (fun c => createdAt c =? k) kept.
Proof.
  rewrite commentsOf_view.
  change (comparator localeCompare "oldest") with byOldest. split.
  - apply StronglySorted_impl with (R := fun a b => byOldest a b <= 0).
    + unfold byOldest. intros a b. lia.
    + apply JsArrayFacts.sort_sorted; unfold byOldest; intros; lia.
  - intros k. apply JsArrayFacts.sort_filter.
    intros x y Hx Hy. unfold byOldest. lia.
Qed.

Lemma view_by_newest :
  StronglySorted (fun a b => createdAt b <= createdAt a) (out "newest") /\
  forall k, filter (fun c => createdAt c =? k) (out "newest")
            = filter (fun c => createdAt c =? k) kept.
Proof.
  rewrite commentsOf_view.
  change (comparator localeCompare "newest") with byNewest. split.
  - apply StronglySorted_impl with (R := fun a b => byNewest a b <= 0).
    + unfold byNewest. intros a b. lia.
    + apply JsArrayFacts.sort_sorted; unfold byNewest; intros; lia.
  - intros k. apply JsArrayFacts.sort_filter.
    intros x y Hx Hy. unfold byNewest. lia.
Qed.

Lemma view_by_commenter :
  StronglySorted (fun a b => localeCompare (author a) (author b) <= 0)
    (out "commenter") /\
  forall k, filter (fun c => localeCompare (author c) k =? 0) (out "commenter")
            = filter (fun c => localeCompare (author c) k =? 0) kept.
Proof.
  rewrite commentsOf_view.
  change (comparator localeCompare "commenter")
    with (byCommenter localeCompare). split.
  - apply (@JsArrayFacts.sort_sorted _ (byCommenter localeCompare)).
    + intros x y.
      apply (ConsistentComparator_total localeCompare_consistent).
    + intros x y z. apply (proj2 localeCompare_consistent).
  - intros k. apply JsArrayFacts.sort_filter.
    intros x y Hx Hy. apply Z.eqb_eq in Hx, Hy.
    now apply (ConsistentComparator_tied localeCompare_consistent k).
Qed.

End SortedView.

(** C2. The comments of the view are a permutation of the comments that
    pass the filters, and they are sorted by the key of the sort option:
    ascending timestamp for "timecode" (so general comments, whose timestamp
    is negative, come first), ascending creation time for "oldest",
    descending creation time for "newest", ascending author in the host's
    collation for "commenter". The sort is stable: the comments of one key
    are in the order the collection has them. On Scenario A, with sort
    option "timecode" and type filter "all", the view is comment 2 with
    number 1 followed by comment 1 with number 2. *)
Theorem C2_sorted_stable_view
    (localeCompare : string -> string -> Z) (cs : list Comment)
    (s t : string) (f : CommentFilters.t) (o : string) :
  ConsistentComparator localeCompare ->
  Permutation (commentsOf (getTopLevelComments localeCompare cs s t f o))
    (filter (visible s t f) cs)
  /\ (o = "timecode" ->
      StronglySorted (fun a b => timestamp a <= timestamp b)
        (commentsOf (getTopLevelComments localeCompare cs s t f o)) /\
      forall k,
        filter (fun c => timestamp c =? k)
          (commentsOf (getTopLevelComments localeCompare cs s t f o))
        = filter (fun c => timestamp c =? k) (filter (visible s t f) cs))
  /\ (o = "oldest" ->
      StronglySorted (fun a b => createdAt a <= createdAt b)
        (commentsOf (getTopLevelComments localeCompare cs s t f o)) /\
      forall k,
        filter (fun c => createdAt c =? k)
          (commentsOf (getTopLevelComments localeCompare cs s t f o))
        = filter (fun c => createdAt c =? k) (filter (visible s t f) cs))
  /\ (o = "newest" ->
      StronglySorted (fun a b => createdAt b <= createdAt a)
        (commentsOf (getTopLevelComments localeCompare cs s t f o)) /\
      forall k,
        filter (fun c => createdAt c =? k)
          (commentsOf (getTopLevelComments localeCompare cs s t f o))
        = filter (fun c => createdAt c =? k) (filter (visible s t f) cs))
  /\ (o = "commenter" ->
      StronglySorted (fun a b => localeCompare (author a) (author b) <= 0)
        (commentsOf (getTopLevelComments localeCompare cs s t f o)) /\
      forall k,
        filter (fun c => localeCompare (author c) k =? 0)
          (commentsOf (getTopLevelComments localeCompare cs s t f o))
        = filter (fun c => localeCompare (author c) k =? 0)
            (filter (visible s t f) cs))
  /\ (forall T1 T2,
        getTopLevelComments localeCompare (scenarioA T1 T2) "" "all" noFilters
          "timecode"
        = [ {| comment := comment2 T2; commentNumber := 1 |};
            {| comment := comment1 T1; commentNumber := 2 |} ]).
Proof.
  intros Hlc. split.
  { rewrite commentsOf_view. apply JsArrayFacts.sort_perm. }
  split; [intros ->; now apply view_by_timestamp |].
  split; [intros ->; apply view_by_oldest |].
  split; [intros ->; apply view_by_newest |].
  split; [intros ->; now apply view_by_commenter |].
  intros T1 T2. reflexivity.
Qed.

Lemma C2_sorted_stable_view_witness :
  ConsistentComparator codeUnitCompare
  /\ StronglySorted
       (fun a b => codeUnitCompare (author a) (author b) <= 0)
       (commentsOf (getTopLevelComments codeUnitCompare sampleComments ""
                      "all" noFilters "commenter")).
Proof.
  split; [exact codeUnitCompare_consistent |].
  apply (@C2_sorted_stable_view codeUnitCompare sampleComments "" "all"
            noFilters "commenter" codeUnitCompare_consistent).
  reflexivity.
Defined.

(** ** The filters *)

(** C3. Among the top-level comments that pass the search and the advanced
    filters (the view of type filter "all", which adds no condition of its
    own), the type filter "public" keeps exactly those whose text does not
    contain "internal" and the type filter "internal" exactly those whose
    text contains it, letter case included. On Scenario A the type filter
    "internal" leaves comment 2 alone. *)
Theorem C3_type_filter
    (localeCompare : string -> string -> Z) (cs : list Comment)
    (s : string) (f : CommentFilters.t) (o : string) (c : Comment) :
  (In c (commentsOf (getTopLevelComments localeCompare cs s "public" f o)) <->
   In c (commentsOf (getTopLevelComments localeCompare cs s "all" f o)) /\
   ~ Contains (text c) "internal")
  /\ (In c (commentsOf (getTopLevelComments localeCompare cs s "internal" f o)) <->
      In c (commentsOf (getTopLevelComments localeCompare cs s "all" f o)) /\
      Contains (text c) "internal")
  /\ (In c (commentsOf (getTopLevelComments localeCompare cs s "all" f o)) <->
      In c cs /\ noParent c = true /\ passesSearch s c = true /\
      passesAdvanced f c = true)
  /\ (forall T1 T2,
        commentsOf (getTopLevelComments localeCompare (scenarioA T1 T2) ""
                      "internal" noFilters "timecode")
        = [comment2 T2]).
Proof.
  rewrite !In_commentsOf_view, <- isInternal_spec.
  unfold visible, passesType. simpl String.eqb. cbv iota.
  repeat split; try reflexivity;
    destruct (noParent c), (passesSearch s c), (passesAdvanced f c),
      (isInternal c); simpl in *; intuition congruence.
Qed.


(** C5. With the attachments toggle set, every comment of the view has at
    least one attachment; and the view does not depend on the five other
    toggles, whatever values they are given. *)
Theorem C5_advanced_filters
    (localeCompare : string -> string -> Z) (cs : list Comment)
    (s t : string) (f : CommentFilters.t) (o : string) (e : NumberedComment)
    (an co inc un me : bool) :
  (CommentFilters.attachments f = true ->
   In e (getTopLevelComments localeCompare cs s t f o) ->
   exists l, attachments (comment e) = Some l /\ (1 <= List.length l)%nat)
  /\ getTopLevelComments localeCompare cs s t
       (CommentFilters.mk an (CommentFilters.attachments f) co inc un me) o
     = getTopLevelComments localeCompare cs s t f o.
Proof.
  split; [| reflexivity].
  intros Hf He. apply In_view in He as (_ & Hv & _).
  apply hasAttachments_spec. unfold visible, passesAdvanced in Hv.
  rewrite Hf, !andb_true_iff in Hv. tauto.
Qed.

Lemma C5_advanced_filters_witness :
  exists l,
    attachments comment5 = Some l /\ (1 <= List.length l)%nat.
Proof.
  refine (proj1 (@C5_advanced_filters codeUnitCompare sampleComments "" "all"
                   (CommentFilters.mk false true false false false false)
                   "timecode" {| comment := comment5; commentNumber := 3 |}
                   true true true true true) eq_refl _).
  vm_compute. auto.
Defined.

(** ** Replies and counts *)

Lemma SelectedInOrder_filter A (P : A -> Prop) (p : A -> bool) l :
  (forall x, p x = true <-> P x) -> SelectedInOrder P l (filter p l).
Proof.
  intros Hp. induction l as [|x l IH]; simpl; [constructor |].
  destruct (p x) eqn:Hx.
  - apply sel_keep; [now apply Hp | exact IH].
  - apply sel_drop; [| exact IH]. rewrite <- Hp. congruence.
Qed.

Lemma SelectedInOrder_unique A (P : A -> Prop) l r r' :
  SelectedInOrder P l r -> SelectedInOrder P l r' -> r = r'.
Proof.
  intros H; revert r'. induction H as [|x l r Hx H IH|x l r Hx H IH];
    intros r' H'; inversion H'; subst; try contradiction;
    [reflexivity | f_equal |]; now apply IH.
Qed.

Lemma parentIs_spec p c : parentIs p c = true <-> parentId c = Some p.
Proof.
  unfold parentIs. destruct (parentId c) as [q|].
  - rewrite String.eqb_eq. split; congruence.
  - split; discriminate.
Qed.

(** C7. The replies of a parent id are exactly the comments of the
    collection whose parentId is that id, each as often and in the order in
    which the collection has them; no other list is. *)
Theorem C7_replies_in_order (cs : list Comment) (p : string)
    (r : list Comment) :
  SelectedInOrder (fun c => parentId c = Some p) cs r <-> r = getReplies cs p.
Proof.
  assert (H : SelectedInOrder (fun c => parentId c = Some p) cs
                (getReplies cs p))
    by (apply SelectedInOrder_filter; intros c; apply parentIs_spec).
  split.
  - intros Hr. exact (SelectedInOrder_unique Hr H).
  - now intros ->.
Qed.

Lemma filter_split_length A (p : A -> bool) l :
  List.length l
  = (List.length (filter (fun x => negb (p x)) l)
     + List.length (filter p l))%nat.
Proof.
  induction l as [|x l IH]; simpl; [reflexivity |].
  destruct (p x); simpl; lia.
Qed.

(** C10. In the counts, [all] is the sum of [public] and [internal]; and
    [all] counts the top-level comments: together with the replies they
    make up the collection, and where every parentId that is present is a
    non-empty string they are the comments without parentId. *)
Theorem C10_counts_add_up (cs : list Comment) :
  all (getCommentCounts cs)
  = (public (getCommentCounts cs) + internal (getCommentCounts cs))%nat
  /\ (all (getCommentCounts cs)
      + List.length (filter (fun c => negb (noParent c)) cs))%nat
     = List.length cs
  /\ SelectedInOrder (fun c => noParent c = true) cs (filter noParent cs)
  /\ all (getCommentCounts cs) = List.length (filter noParent cs)
  /\ ((forall c, In c cs -> parentId c <> Some "") ->
      all (getCommentCounts cs)
      = List.length
          (filter (fun c => match parentId c with None => true | _ => false end)
             cs)).
Proof.
  simpl. split; [apply filter_split_length |].
  split; [rewrite (filter_split_length noParent cs); lia |].
  split; [apply SelectedInOrder_filter; tauto |].
  split; [reflexivity |].
  intros H. f_equal. apply filter_ext_in. intros c Hc.
  unfold noParent. specialize (H c Hc).
  destruct (parentId c) as [[|a q]|]; simpl; congruence.
Qed.

Lemma C10_counts_add_up_witness :
  all (getCommentCounts sampleComments)
  = List.length
      (filter (fun c => match parentId c with None => true | _ => false end)
         sampleComments).
Proof.
  apply (C10_counts_add_up sampleComments).
  intros c Hc. simpl in Hc.
  repeat (destruct Hc as [<- | Hc]; [discriminate |]). destruct Hc.
Defined.

(** ** Threads: the view together with the replies of its comments *)

Lemma NoDup_map_filter A B (g : A -> B) (p : A -> bool) l :
  NoDup (map g l) -> NoDup (map g (filter p l)).
Proof.
  induction l as [|x l IH]; simpl; [auto |].
  intros H. inversion H as [|? ? Hx Hl]; subst.
  destruct (p x); simpl; [| now apply IH].
  constructor; [| now apply IH].
  rewrite in_map_iff in *. intros (y & Hy & Hin). apply Hx.
  exists y. split; [exact Hy |]. now apply filter_In in Hin.
Qed.

Lemma In_getReplies cs p r :
  In r (getReplies cs p) <-> In r cs /\ parentId r = Some p.
Proof. unfold getReplies. now rewrite filter_In, parentIs_spec. Qed.

Lemma noParent_parentId c p :
  noParent c = true -> parentId c = Some p -> p = "".
Proof.
  unfold noParent. intros H Hp. rewrite Hp in H.
  destruct p; [reflexivity | discriminate].
Qed.

Lemma NoDup_replies cs (v : list NumberedComment) :
  NoDup cs -> NoDup (map (fun e => id (comment e)) v) ->
  NoDup (flat_map (fun e => getReplies cs (id (comment e))) v).
Proof.
  intros Hcs. induction v as [|e v IH]; simpl; [constructor |].
  intros H. inversion H as [|? ? He Hv]; subst.
  apply NoDup_app; [now apply NoDup_filter | now apply IH |].
  intros r Hr Hr'. apply In_getReplies in Hr as (_ & Hp).
  apply in_flat_map in Hr' as (e' & He' & Hr').
  apply In_getReplies in Hr' as (_ & Hp'). apply He.
  apply in_map_iff. exists e'. split; [congruence | exact He'].
Qed.

Section Threads.
Variable localeCompare : string -> string -> Z.
Variables (cs : list Comment) (s t : string) (f : CommentFilters.t)
          (o : string).

Local Abbreviation view := (getTopLevelComments localeCompare cs s t f o).

Lemma In_threadUnion c :
  In c (threadUnion cs view) <->
  In c cs /\
  (visible s t f c = true \/
   exists p, In p cs /\ visible s t f p = true /\ parentId c = Some (id p)).
Proof.
  unfold threadUnion. rewrite in_app_iff, In_commentsOf_view, in_flat_map.
  split.
  - intros [[Hc Hv] | (e & He & Hr)]; [tauto |].
    apply In_getReplies in Hr as (Hc & Hp).
    apply In_view in He as (He & Hv & _).
    split; [exact Hc |]. right. now exists (comment e).
  - intros (Hc & [Hv | (p & Hp & Hv & Hpar)]); [tauto |]. right.
    exists {| comment := p; commentNumber := numberOf cs p |}. split.
    + apply In_view. simpl. tauto.
    + apply In_getReplies. simpl. tauto.
Qed.

Hypothesis ids_unique : NoDup (map id cs).
Hypothesis parentId_not_empty : forall c, In c cs -> parentId c <> Some "".

Lemma NoDup_threadUnion : NoDup (threadUnion cs view).
Proof.
  assert (Hcs : NoDup cs) by exact (NoDup_map_inv _ _ ids_unique).
  unfold threadUnion. apply NoDup_app.
  - rewrite commentsOf_view.
    apply (Permutation_NoDup (Permutation_sym (JsArrayFacts.sort_perm _ _))).
    now apply NoDup_filter.
  - apply NoDup_replies; [exact Hcs |].
    replace (map (fun e => id (comment e)) view)
      with (map id (commentsOf view))
      by (unfold commentsOf; now rewrite map_map).
    rewrite commentsOf_view.
    apply (Permutation_NoDup
             (Permutation_map id
                (Permutation_sym (JsArrayFacts.sort_perm _ _)))).
    now apply NoDup_map_filter.
  - intros c Hc Hr. apply In_commentsOf_view in Hc as (Hc & Hv).
    apply in_flat_map in Hr as (e & _ & Hr).
    apply In_getReplies in Hr as (_ & Hp).
    unfold visible in Hv. rewrite !andb_true_iff in Hv.
    destruct Hv as (((Htop & _) & _) & _).
    pose proof (noParent_parentId _ Htop Hp) as Hid.
    apply (parentId_not_empty _ Hc). now rewrite Hp, Hid.
Qed.

Lemma threadUnion_partition :
  Permutation (threadUnion cs view) cs <->
  (forall c, In c cs -> noParent c = true -> visible s t f c = true) /\
  repliesResolve cs.
Proof.
  split.
  - intros Hperm.
    assert (Hin : forall c, In c cs -> In c (threadUnion cs view))
      by (intros c; apply Permutation_in; now apply Permutation_sym).
    split.
    + intros c Hc Htop.
      apply Hin, In_threadUnion in Hc as (Hc & [Hv | (p & _ & _ & Hp)]);
        [exact Hv |].
      pose proof (noParent_parentId _ Htop Hp) as Hid.
      exfalso. apply (parentId_not_empty _ Hc). now rewrite Hp, Hid.
    + intros r Hr Hrep.
      apply Hin, In_threadUnion in Hr as (Hr & [Hv | (p & Hp & Hv & Hpar)]).
      * unfold visible in Hv. rewrite !andb_true_iff in Hv. intuition congruence.
      * exists p. unfold visible in Hv. rewrite !andb_true_iff in Hv. tauto.
  - intros (Hall & Hres).
    apply NoDup_Permutation;
      [apply NoDup_threadUnion | exact (NoDup_map_inv _ _ ids_unique) |].
    intros c. rewrite In_threadUnion. split; [tauto |].
    intros Hc. split; [exact Hc |].
    destruct (noParent c) eqn:Htop; [left; now apply Hall |].
    right. destruct (Hres c Hc Htop) as (p & Hp & Hptop & Hpar).
    exists p. split; [exact Hp |]. split; [now apply Hall | exact Hpar].
Qed.

End Threads.

(** C6, as the claim states it, fails: a type filter that hides the only
    comment of a collection without replies leaves an empty union. *)
Lemma C6_filtered_view_counterexample :
  ~ (Permutation
       (threadUnion [comment1 10]
          (getTopLevelComments codeUnitCompare [comment1 10] "" "internal"
             noFilters "timecode"))
       [comment1 10]
     <-> repliesResolve [comment1 10]).
Proof.
  intros [_ H].
  assert (Hres : repliesResolve [comment1 10]).
  { intros r [<- | []] Hr. discriminate Hr. }
  apply H in Hres. apply Permutation_length in Hres. discriminate Hres.
Qed.

(** C6. Let the ids of the collection be unique and every parentId that is
    present be a non-empty string. The view followed by the replies of each
    of its comments is a rearrangement of the collection, with every comment
    exactly once, if and only if no top-level comment is hidden by the
    search, the type filter or the advanced filters and every reply names a
    top-level comment of the collection as its parent. Whatever the filters
    are, a reply returned for a comment of the view names that comment, so
    a reply whose parentId is the id of no comment of the view is returned
    for none of them. *)
Theorem C6_thread_partition
    (localeCompare : string -> string -> Z) (cs : list Comment)
    (s t : string) (f : CommentFilters.t) (o : string) :
  NoDup (map id cs) ->
  (forall c, In c cs -> parentId c <> Some "") ->
  (Permutation
     (threadUnion cs (getTopLevelComments localeCompare cs s t f o)) cs
   <-> (forall c, In c cs -> noParent c = true -> visible s t f c = true) /\
       repliesResolve cs)
  /\ (forall r,
        (forall e, In e (getTopLevelComments localeCompare cs s t f o) ->
                   parentId r <> Some (id (comment e))) ->
        forall e, In e (getTopLevelComments localeCompare cs s t f o) ->
                  ~ In r (getReplies cs (id (comment e)))).
Proof.
  intros Hids Hpar. split; [now apply threadUnion_partition |].
  intros r Hr e He Hin. apply In_getReplies in Hin as (_ & Hp).
  exact (Hr e He Hp).
Qed.

Lemma C6_thread_partition_witness :
  Permutation
    (threadUnion sampleComments
       (getTopLevelComments codeUnitCompare sampleComments "" "all" noFilters
          "newest"))
    sampleComments.
Proof.
  assert (Hids : NoDup (map id sampleComments)).
  { simpl. repeat constructor; simpl; intuition discriminate. }
  assert (Hpar : forall c, In c sampleComments -> parentId c <> Some "").
  { intros c Hc. simpl in Hc.
    repeat (destruct Hc as [<- | Hc]; [discriminate |]). destruct Hc. }
  apply (proj1 (@C6_thread_partition codeUnitCompare sampleComments "" "all"
                  noFilters "newest" Hids Hpar)).
  split.
  - intros c Hc. simpl in Hc.
    repeat (destruct Hc as [<- | Hc]; [intros; try reflexivity; discriminate |]).
    destruct Hc.
  - intros r Hr. simpl in Hr.
    repeat (destruct Hr as [<- | Hr]; [try discriminate |]); [| destruct Hr].
    intros _. exists (comment1 10). simpl. auto.
Defined.

(** ** The programs over the store *)

Module StoreFacts.
Import Store StoreMonad.

Lemma nth_error_app_Some A (l l' : list A) n x :
  nth_error l n = Some x -> nth_error (l ++ l') n = Some x.
Proof.
  intros H. rewrite nth_error_app1; [exact H |].
  apply nth_error_Some. congruence.
Qed.

Lemma nth_error_length A (l : list A) : nth_error l (List.length l) = None.
Proof. apply nth_error_None. lia. Qed.

Lemma nth_error_overwrite A (l : list A) a x b :
  (a < List.length l)%nat ->
  nth_error (firstn a l ++ x :: skipn (S a) l) b
  = if Nat.eqb b a then Some x else nth_error l b.
Proof.
  revert a b; induction l as [|y l IH]; intros a b Ha; simpl in Ha; [lia |].
  destruct a as [|a]; simpl.
  - destruct b; reflexivity.
  - destruct b as [|b]; [reflexivity |]. simpl. apply IH. lia.
Qed.

Lemma traverse_mono B (g g' : ref -> option B) l bs :
  (forall r b, In r l -> g r = Some b -> g' r = Some b) ->
  traverse g l = Some bs -> traverse g' l = Some bs.
Proof.
  revert bs; induction l as [|r l IH]; intros bs Hg; simpl; [auto |].
  destruct (g r) as [b|] eqn:Hr; [| discriminate].
  destruct (traverse g l) as [bs'|] eqn:Hl; [| discriminate].
  intros H. rewrite (Hg r b (or_introl eq_refl) Hr).
  rewrite (IH bs'); [exact H | | reflexivity].
  intros r' b' Hin. apply Hg. now right.
Qed.

Lemma unchanged_refl h : unchanged h h.
Proof. split; auto. Qed.

Lemma unchanged_trans h1 h2 h3 :
  unchanged h1 h2 -> unchanged h2 h3 -> unchanged h1 h3.
Proof. intros [H1 H2] [H3 H4]. split; auto. Qed.

Lemma commentAt_unchanged h h' r c :
  unchanged h h' -> commentAt h r = Some c -> commentAt h' r = Some c.
Proof.
  intros [Ho _]. unfold commentAt.
  destruct (nth_error (objects h) r) as [o|] eqn:Hr; [| discriminate].
  now rewrite (Ho _ _ Hr).
Qed.

Lemma comments_unchanged h h' a cs :
  unchanged h h' -> comments h a = Some cs -> comments h' a = Some cs.
Proof.
  intros Hu. unfold comments.
  destruct (nth_error (arrays h) a) as [l|] eqn:Ha; [| discriminate].
  rewrite (proj2 Hu _ _ Ha). apply traverse_mono.
  intros r b _. now apply commentAt_unchanged.
Qed.

Lemma unchanged_newArray h l :
  unchanged h (mk (objects h) (arrays h ++ [l])).
Proof. split; simpl; auto. intros a l'. apply nth_error_app_Some. Qed.

Lemma unchanged_newObject h o :
  unchanged h (mk (objects h ++ [o]) (arrays h)).
Proof. split; simpl; auto. intros r o'. apply nth_error_app_Some. Qed.

(** *** The loops that only read *)

Section Reading.
Variable h : Store.t.

Lemma readObject_run r c :
  commentAt h r = Some c -> readObject r h = Some (c, h).
Proof. unfold readObject. now intros ->. Qed.

Lemma filterRefs_run p l cs :
  traverse (commentAt h) l = Some cs ->
  exists l', filterRefs p l h = Some (l', h) /\
             traverse (commentAt h) l' = Some (filter p cs).
Proof.
  revert cs; induction l as [|r l IH]; simpl; intros cs H.
  - injection H as <-. now exists [].
  - destruct (commentAt h r) as [c|] eqn:Hr; [| discriminate].
    destruct (traverse (commentAt h) l) as [cs'|] eqn:Hl; [| discriminate].
    injection H as <-. destruct (IH _ eq_refl) as (l' & Hrun & Hl').
    unfold bind. rewrite (readObject_run _ Hr), Hrun. unfold ret. simpl.
    destruct (p c).
    + exists (r :: l'). split; [reflexivity |]. simpl. now rewrite Hr, Hl'.
    + now exists l'.
Qed.

Lemma insertRef_run cmp r c l cs :
  commentAt h r = Some c ->
  traverse (commentAt h) l = Some cs ->
  exists l', insertRef cmp r c l h = Some (l', h) /\
             traverse (commentAt h) l' = Some (JsArray.insert cmp c cs).
Proof.
  intros Hr. revert cs; induction l as [|y l IH]; simpl; intros cs H.
  - injection H as <-. exists [r]. split; [reflexivity |].
    simpl. now rewrite Hr.
  - destruct (commentAt h y) as [cy|] eqn:Hy; [| discriminate].
    destruct (traverse (commentAt h) l) as [cs'|] eqn:Hl; [| discriminate].
    injection H as <-. unfold bind. rewrite (readObject_run _ Hy). simpl.
    destruct (cmp c cy <=? 0).
    + exists (r :: y :: l). split; [reflexivity |].
      simpl. now rewrite Hr, Hy, Hl.
    + destruct (IH _ eq_refl) as (l' & Hrun & Hl'). rewrite Hrun.
      exists (y :: l'). split; [reflexivity |]. simpl. now rewrite Hy, Hl'.
Qed.

Lemma sortRefs_run cmp l cs :
  traverse (commentAt h) l = Some cs ->
  exists l', sortRefs cmp l h = Some (l', h) /\
             traverse (commentAt h) l' = Some (JsArray.sort cmp cs).
Proof.
  revert cs; induction l as [|r l IH]; simpl; intros cs H.
  - injection H as <-. now exists [].
  - destruct (commentAt h r) as [c|] eqn:Hr; [| discriminate].
    destruct (traverse (commentAt h) l) as [cs'|] eqn:Hl; [| discriminate].
    injection H as <-. destruct (IH _ eq_refl) as (l' & Hrun & Hl').
    unfold bind. rewrite Hrun, (readObject_run _ Hr).
    apply insertRef_run; assumption.
Qed.

Lemma findIndexRefs_run p i l cs :
  traverse (commentAt h) l = Some cs ->
  findIndexRefs p i l h = Some (JsArray.findIndexFrom i p cs, h).
Proof.
  revert i cs; induction l as [|r l IH]; simpl; intros i cs H.
  - now injection H as <-.
  - destruct (commentAt h r) as [c|] eqn:Hr; [| discriminate].
    destruct (traverse (commentAt h) l) as [cs'|] eqn:Hl; [| discriminate].
    injection H as <-. unfold bind. rewrite (readObject_run _ Hr). simpl.
    destruct (p c); [reflexivity | now apply IH].
Qed.

Lemma traverse_length B (g : ref -> option B) l bs :
  traverse g l = Some bs -> List.length l = List.length bs.
Proof.
  revert bs; induction l as [|r l IH]; simpl; intros bs H.
  - now injection H as <-.
  - destruct (g r); [| discriminate].
    destruct (traverse g l) as [bs'|]; [| discriminate].
    injection H as <-. simpl. f_equal. now apply IH.
Qed.
End Reading.

(** *** The array methods *)

Lemma bind_run A B (m : M A) (k : A -> M B) h a h' :
  m h = Some (a, h') -> bind m k h = k a h'.
Proof. unfold bind. now intros ->. Qed.

Arguments bind_run [A B m] k [h a h'] _.

Lemma comments_same h h' a :
  objects h' = objects h ->
  nth_error (arrays h') a = nth_error (arrays h) a ->
  comments h' a = comments h a.
Proof.
  intros Ho Ha. unfold comments. rewrite Ha.
  destruct (nth_error (arrays h) a) as [l|]; [| reflexivity].
  unfold commentAt. now rewrite Ho.
Qed.

Lemma fresh_unchanged h h' a :
  unchanged h h' -> nth_error (arrays h') a = None ->
  nth_error (arrays h) a = None.
Proof.
  intros [_ Ha] H. destruct (nth_error (arrays h) a) as [l|] eqn:E;
    [| reflexivity].
  rewrite (Ha _ _ E) in H. discriminate.
Qed.

Lemma arrayFilter_run p h a cs :
  comments h a = Some cs ->
  exists x h', arrayFilter p a h = Some (x, h') /\
               allocated h h' x (filter p cs).
Proof.
  unfold comments. intros H.
  destruct (nth_error (arrays h) a) as [l|] eqn:Ha; [| discriminate].
  destruct (filterRefs_run h p l H) as (l' & Hrun & Hl').
  exists (List.length (arrays h)), (mk (objects h) (arrays h ++ [l'])).
  split.
  - unfold arrayFilter, readArray, bind. now rewrite Ha, Hrun.
  - split; [apply unchanged_newArray |]. split; [reflexivity |].
    split; [apply nth_error_length |].
    unfold comments. simpl.
    rewrite nth_error_app2, Nat.sub_diag by lia. exact Hl'.
Qed.

Lemma arraySort_run cmp h a cs :
  comments h a = Some cs ->
  exists h', arraySort cmp a h = Some (a, h') /\
             objects h' = objects h /\
             (forall b, b <> a ->
                        nth_error (arrays h') b = nth_error (arrays h) b) /\
             comments h' a = Some (JsArray.sort cmp cs).
Proof.
  unfold comments. intros H.
  destruct (nth_error (arrays h) a) as [l|] eqn:Ha; [| discriminate].
  destruct (sortRefs_run h cmp l H) as (l' & Hrun & Hl').
  assert (Hlt : (a < List.length (arrays h))%nat)
    by (apply nth_error_Some; congruence).
  exists (mk (objects h)
             (firstn a (arrays h) ++ l' :: skipn (S a) (arrays h))).
  split.
  - unfold arraySort, readArray, writeArray, bind, ret.
    now rewrite Ha, Hrun, Ha.
  - split; [reflexivity |]. split.
    + intros b Hb. simpl. rewrite nth_error_overwrite by exact Hlt.
      apply Nat.eqb_neq in Hb. now rewrite Hb.
    + unfold comments. simpl. rewrite nth_error_overwrite by exact Hlt.
      rewrite Nat.eqb_refl. exact Hl'.
Qed.

Lemma arrayFindIndex_run p h a cs :
  comments h a = Some cs ->
  arrayFindIndex p a h = Some (JsArray.findIndex p cs, h).
Proof.
  unfold comments. intros H.
  destruct (nth_error (arrays h) a) as [l|] eqn:Ha; [| discriminate].
  unfold arrayFindIndex, readArray, bind. rewrite Ha.
  now apply findIndexRefs_run.
Qed.

Lemma arrayLength_run h a cs :
  comments h a = Some cs ->
  arrayLength a h = Some (List.length cs, h).
Proof.
  unfold comments. intros H.
  destruct (nth_error (arrays h) a) as [l|] eqn:Ha; [| discriminate].
  unfold arrayLength, readArray, bind, ret. rewrite Ha.
  now rewrite (traverse_length _ _ H).
Qed.

(** *** Arrays allocated since a store [h0] *)

Lemma allocated_trans h0 h h' x xs :
  unchanged h0 h -> objects h = objects h0 ->
  allocated h h' x xs -> allocated h0 h' x xs.
Proof.
  intros Hu Ho (Hu' & Ho' & Hx & Hc).
  split; [now apply unchanged_trans with h |].
  split; [congruence |]. split; [| exact Hc].
  now apply fresh_unchanged with h.
Qed.

Lemma allocated_filter p h0 h x xs :
  allocated h0 h x xs ->
  exists y h', arrayFilter p x h = Some (y, h') /\
               allocated h0 h' y (filter p xs).
Proof.
  intros (Hu & Ho & _ & Hc).
  destruct (arrayFilter_run p _ _ Hc) as (y & h' & Hrun & Hal).
  exists y, h'. split; [exact Hrun |]. now apply allocated_trans with h.
Qed.

Lemma allocated_if (b : bool) p h0 h x xs :
  allocated h0 h x xs ->
  exists y h', (if b then arrayFilter p x else ret x) h = Some (y, h') /\
               allocated h0 h' y (if b then filter p xs else xs).
Proof.
  intros H. destruct b; [now apply allocated_filter |]. now exists x, h.
Qed.

Lemma allocated_if2 (b1 b2 : bool) p1 p2 h0 h x xs :
  allocated h0 h x xs ->
  exists y h',
    (if b1 then arrayFilter p1 x
     else if b2 then arrayFilter p2 x else ret x) h = Some (y, h') /\
    allocated h0 h' y
      (if b1 then filter p1 xs else if b2 then filter p2 xs else xs).
Proof.
  intros H. destruct b1; [now apply allocated_filter |].
  now apply allocated_if.
Qed.

Lemma allocated_sort cmp h0 h x xs :
  allocated h0 h x xs ->
  exists h', arraySort cmp x h = Some (x, h') /\
             allocated h0 h' x (JsArray.sort cmp xs) /\
             (forall y, y <> x -> comments h' y = comments h y).
Proof.
  intros (Hu & Ho & Hx & Hc).
  destruct (arraySort_run cmp _ _ Hc) as (h' & Hrun & Ho' & Ha & Hc').
  exists h'. split; [exact Hrun |]. split.
  - split; [| split; [congruence | now split]].
    split.
    + intros r o Hr. rewrite Ho'. now apply (proj1 Hu).
    + intros a l Hl. rewrite Ha; [now apply (proj2 Hu) |].
      intros ->. congruence.
  - intros y Hy. apply comments_same; auto.
Qed.

(** *** Numbering the sorted array *)

Section Numbering.
(** The array [k] holds the ranking [rs]. *)
Variable k : ref.
Variable rs : list Comment.

Let number (c : Comment) : NumberedComment :=
  {| comment := c;
     commentNumber :=
       JsArray.findIndex (fun d => String.eqb (id d) (id c)) rs + 1 |}.

Let callback (r : ref) : M ref :=
  c <- readObject r ;;
  i <- arrayFindIndex (fun d => String.eqb (id d) (id c)) k ;;
  newObject (ONumbered {| comment := c; commentNumber := i + 1 |}).

Lemma mapRefs_number_run l : forall h cs,
  traverse (commentAt h) l = Some cs ->
  comments h k = Some rs ->
  mapRefs callback l h
  = Some (seq (List.length (objects h)) (List.length l),
          mk (objects h ++ map ONumbered (map number cs)) (arrays h)).
Proof.
  induction l as [|r l IH]; simpl; intros h cs H Hk.
  - injection H as <-. simpl. rewrite app_nil_r. now destruct h.
  - destruct (commentAt h r) as [c|] eqn:Hr; [| discriminate].
    destruct (traverse (commentAt h) l) as [cs'|] eqn:Hl; [| discriminate].
    injection H as <-.
    set (h1 := mk (objects h ++ [ONumbered (number c)]) (arrays h)).
    assert (Hu : unchanged h h1) by apply unchanged_newObject.
    assert (Hstep : callback r h = Some (List.length (objects h), h1)).
    { unfold callback.
      rewrite (bind_run _ (readObject_run _ _ Hr)).
      now rewrite (bind_run _ (arrayFindIndex_run _ _ _ Hk)). }
    rewrite (bind_run _ Hstep).
    assert (Hl1 : traverse (commentAt h1) l = Some cs').
    { apply traverse_mono with (g := commentAt h); [| exact Hl].
      intros r' b _. now apply commentAt_unchanged. }
    rewrite (bind_run _ (IH h1 cs' Hl1 (comments_unchanged _ Hu Hk))).
    unfold ret, h1. simpl. rewrite length_app, <- app_assoc. simpl.
    now rewrite Nat.add_1_r.
Qed.

Lemma traverse_numbered ns : forall os arrs,
  traverse (numberedAt (mk (os ++ map ONumbered ns) arrs))
    (seq (List.length os) (List.length ns))
  = Some ns.
Proof.
  induction ns as [|n ns IH]; intros os arrs; [reflexivity |].
  simpl. unfold numberedAt at 1. simpl.
  rewrite nth_error_app2, Nat.sub_diag by lia. simpl.
  specialize (IH (os ++ [ONumbered n])%list arrs).
  rewrite length_app, <- app_assoc, Nat.add_1_r in IH. simpl in IH.
  now rewrite IH.
Qed.

Lemma arrayMap_number_run h x cs :
  comments h x = Some cs ->
  comments h k = Some rs ->
  exists r h',
    arrayMap callback x h = Some (r, h') /\
    unchanged h h' /\
    numbered h' r = Some (map number cs) /\
    freshArray h h' r.
Proof.
  intros Hx Hk. unfold comments in Hx.
  destruct (nth_error (arrays h) x) as [l|] eqn:Ha; [| discriminate].
  pose proof (mapRefs_number_run l h Hx Hk) as Hrun.
  pose proof (traverse_length _ _ Hx) as Hlen.
  exists (List.length (arrays h)),
    (mk (objects h ++ map ONumbered (map number cs))
        (arrays h ++ [seq (List.length (objects h)) (List.length l)])).
  split.
  { unfold arrayMap, readArray, bind. rewrite Ha.
    fold (bind (mapRefs callback l) newArray h).
    now rewrite (bind_run _ Hrun). }
  split.
  { split; simpl; intros ? ?; apply nth_error_app_Some. }
  split.
  { unfold numbered. simpl.
    rewrite nth_error_app2, Nat.sub_diag by lia. simpl.
    rewrite Hlen, <- (length_map number cs). apply traverse_numbered. }
  split; [apply nth_error_length |].
  simpl. intros l0 r0.
  rewrite nth_error_app2, Nat.sub_diag by lia. simpl.
  intros Hl0 Hin. injection Hl0 as <-.
  apply in_seq in Hin. apply nth_error_None. lia.
Qed.
End Numbering.

Lemma freshArray_unchanged h0 h h' r :
  unchanged h0 h -> freshArray h h' r -> freshArray h0 h' r.
Proof.
  intros Hu [Ha Hel]. split; [now apply fresh_unchanged with h |].
  intros l x Hl Hx. specialize (Hel l x Hl Hx).
  destruct (nth_error (objects h0) x) as [o|] eqn:E; [| reflexivity].
  rewrite (proj1 Hu _ _ E) in Hel. discriminate.
Qed.

(** *** The three functions *)

(** Run on a store whose array [a] holds [cs], [getTopLevelComments]
    returns a new array of new objects, which are the numbered comments of
    the pure function, and leaves all that was in the store as it was. *)
Lemma getTopLevelComments_run localeCompare h a cs s t f o :
  comments h a = Some cs ->
  exists r h',
    OnStore.getTopLevelComments localeCompare a s t f o h = Some (r, h') /\
    unchanged h h' /\
    numbered h' r = Some (getTopLevelComments localeCompare cs s t f o) /\
    freshArray h h' r.
Proof.
  intros Ha. unfold OnStore.getTopLevelComments, getTopLevelComments.
  destruct (arrayFilter_run noParent _ _ Ha) as (x1 & h1 & E1 & A1).
  rewrite (bind_run _ E1).
  destruct (allocated_if (truthy s) (matchesSearch s) A1)
    as (x2 & h2 & E2 & A2).
  rewrite (bind_run _ E2).
  destruct (allocated_if2 (String.eqb t "public") (String.eqb t "internal")
              (fun c => negb (isInternal c)) isInternal A2)
    as (x3 & h3 & E3 & A3).
  rewrite (bind_run _ E3).
  destruct (allocated_if (CommentFilters.attachments f) hasAttachments A3)
    as (x4 & h4 & E4 & A4).
  rewrite (bind_run _ E4).
  destruct (allocated_sort (comparator localeCompare o) A4)
    as (h5 & E5 & (Hu5 & Ho5 & Hx5 & Hc5) & _).
  rewrite (bind_run _ E5).
  destruct (arrayFilter_run (fun c => noParent c && (0 <=? timestamp c)) _ _
              (comments_unchanged _ Hu5 Ha))
    as (y & h6 & E6 & A6).
  rewrite (bind_run _ E6).
  assert (Hyx : x4 <> y).
  { intros ->. destruct A6 as (_ & _ & Hy & _).
    unfold comments in Hc5. now rewrite Hy in Hc5. }
  pose proof (comments_unchanged _ (proj1 A6) Hc5) as Hc6.
  destruct (allocated_sort byTimestamp
              (allocated_trans Hu5 Ho5 A6))
    as (h7 & E7 & (Hu7 & Ho7 & Hy7 & Hc7) & Hsame).
  rewrite (bind_run _ E7).
  rewrite <- (Hsame x4 Hyx) in Hc6.
  destruct (arrayMap_number_run _ _ _ Hc6 Hc7) as (r & h8 & E8 & Hu8 & Hn8 & Hf8).
  exists r, h8. split; [exact E8 |].
  split; [now apply unchanged_trans with h7 |].
  split; [exact Hn8 |]. now apply freshArray_unchanged with h7.
Qed.

(** [getReplies] returns a new array, which holds the replies of the pure
    function, and leaves the store as it was. *)
Lemma getReplies_run h a cs p :
  comments h a = Some cs ->
  exists r h',
    OnStore.getReplies a p h = Some (r, h') /\
    unchanged h h' /\
    comments h' r = Some (getReplies cs p) /\
    nth_error (arrays h) r = None.
Proof.
  intros Ha.
  destruct (arrayFilter_run (parentIs p) _ _ Ha)
    as (r & h' & E & Hu & _ & Hr & Hc).
  now exists r, h'.
Qed.

(** [getCommentCounts] returns the counts of the pure function and leaves
    the store as it was. *)
Lemma getCommentCounts_run h a cs :
  comments h a = Some cs ->
  exists h',
    OnStore.getCommentCounts a h = Some (getCommentCounts cs, h') /\
    unchanged h h'.
Proof.
  intros Ha. unfold OnStore.getCommentCounts, getCommentCounts.
  destruct (arrayFilter_run noParent _ _ Ha) as (x & h1 & E1 & A1).
  rewrite (bind_run _ E1).
  rewrite (bind_run _ (arrayLength_run _ _ (proj2 (proj2 (proj2 A1))))).
  destruct (allocated_filter (fun c => negb (isInternal c)) A1)
    as (y & h2 & E2 & A2).
  rewrite (bind_run _ E2).
  rewrite (bind_run _ (arrayLength_run _ _ (proj2 (proj2 (proj2 A2))))).
  assert (A1' : allocated h h2 x (filter noParent cs)).
  { destruct A1 as (Hu1 & Ho1 & Hx1 & Hc1), A2 as (Hu2 & Ho2 & _ & _).
    split; [exact Hu2 |]. split; [exact Ho2 |]. split; [exact Hx1 |].
    destruct (arrayFilter_run (fun c => negb (isInternal c)) _ _ Hc1)
      as (y' & h2' & E2' & Hu' & _).
    assert (h2' = h2) by congruence. subst h2'.
    now apply comments_unchanged with h1. }
  destruct (allocated_filter isInternal A1') as (z & h3 & E3 & A3).
  rewrite (bind_run _ E3).
  rewrite (bind_run _ (arrayLength_run _ _ (proj2 (proj2 (proj2 A3))))).
  exists h3. split; [reflexivity | exact (proj1 A3)].
Qed.

End StoreFacts.

(** ** Totality and fallbacks *)

Lemma comparator_fallback localeCompare o :
  o <> "oldest" -> o <> "newest" -> o <> "commenter" ->
  comparator localeCompare o = byTimestamp.
Proof.
  intros H1 H2 H3. unfold comparator.
  apply String.eqb_neq in H1, H2, H3. now rewrite H1, H2, H3.
Qed.

(** C8. On the empty collection the view and the replies are empty and the
    counts are all 0. A sort option other than "oldest", "newest" and
    "commenter" gives the view of "timecode", and a type filter other than
    "public" and "internal" gives the view of "all". Run on any store whose
    array holds comments, each of the three functions returns a result. *)
Theorem C8_total_with_fallbacks (localeCompare : string -> string -> Z) :
  (forall s t f o, getTopLevelComments localeCompare [] s t f o = [])
  /\ (forall p, getReplies [] p = [])
  /\ getCommentCounts [] = {| all := 0; public := 0; internal := 0 |}
  /\ (forall cs s t f o,
        o <> "oldest" -> o <> "newest" -> o <> "commenter" ->
        getTopLevelComments localeCompare cs s t f o
        = getTopLevelComments localeCompare cs s t f "timecode")
  /\ (forall cs s t f o,
        t <> "public" -> t <> "internal" ->
        getTopLevelComments localeCompare cs s t f o
        = getTopLevelComments localeCompare cs s "all" f o)
  /\ (forall h a cs s t f o p,
        Store.comments h a = Some cs ->
        (exists r h',
           OnStore.getTopLevelComments localeCompare a s t f o h
           = Some (r, h'))
        /\ (exists r h', OnStore.getReplies a p h = Some (r, h'))
        /\ (exists c h', OnStore.getCommentCounts a h = Some (c, h'))).
Proof.
  split; [| split; [| split; [| split; [| split]]]]; try reflexivity.
  - intros s t f o. unfold getTopLevelComments. simpl.
    now destruct (truthy s), (String.eqb t "public"),
      (String.eqb t "internal"), (CommentFilters.attachments f).
  - intros cs s t f o H1 H2 H3. unfold getTopLevelComments.
    now rewrite (comparator_fallback localeCompare H1 H2 H3).
  - intros cs s t f o H1 H2. unfold getTopLevelComments.
    apply String.eqb_neq in H1, H2. now rewrite H1, H2.
  - intros h a cs s t f o p Ha. split; [| split].
    + destruct (@StoreFacts.getTopLevelComments_run localeCompare h a cs s t f o Ha)
        as (r & h' & E & _).
      now exists r, h'.
    + destruct (@StoreFacts.getReplies_run h a cs p Ha) as (r & h' & E & _).
      now exists r, h'.
    + destruct (@StoreFacts.getCommentCounts_run h a cs Ha) as (h' & E & _).
      now exists (getCommentCounts cs), h'.
Qed.

Lemma C8_total_with_fallbacks_witness :
  getTopLevelComments codeUnitCompare sampleComments "" "all" noFilters
    "byLength"
  = getTopLevelComments codeUnitCompare sampleComments "" "all" noFilters
      "timecode"
  /\ getTopLevelComments codeUnitCompare sampleComments "" "private" noFilters
       "oldest"
     = getTopLevelComments codeUnitCompare sampleComments "" "all" noFilters
         "oldest"
  /\ exists r h',
       OnStore.getTopLevelComments codeUnitCompare 0%nat "" "private"
         noFilters "byLength" sampleStore
       = Some (r, h').
Proof.
  destruct (C8_total_with_fallbacks codeUnitCompare)
    as (_ & _ & _ & Hsort & Htype & Hrun).
  split; [apply Hsort; discriminate |].
  split; [apply Htype; discriminate |].
  apply (Hrun sampleStore 0%nat sampleComments "" "private" noFilters
           "byLength" "1" eq_refl).
Defined.

(** ** The inputs are left as they were *)

(** C9. Let the array [a] of the store hold the collection. Each of the
    three functions runs to a result and a store in which every array and
    every object of the store before the call is at its reference with its
    value, so the array [a] holds the same comments. The view is a new
    array whose elements are new objects, the numbered comments of the pure
    function; [sort] has only overwritten arrays made during the call. The
    replies are a new array too. *)
Theorem C9_inputs_unchanged
    (localeCompare : string -> string -> Z) (h : Store.t) (a : Store.ref)
    (cs : list Comment) (s t : string) (f : CommentFilters.t) (o p : string) :
  Store.comments h a = Some cs ->
  (exists r h',
     OnStore.getTopLevelComments localeCompare a s t f o h = Some (r, h') /\
     Store.unchanged h h' /\ Store.comments h' a = Some cs /\
     Store.freshArray h h' r /\
     Store.numbered h' r
     = Some (getTopLevelComments localeCompare cs s t f o))
  /\ (exists r h',
        OnStore.getReplies a p h = Some (r, h') /\
        Store.unchanged h h' /\ Store.comments h' a = Some cs /\
        nth_error (Store.arrays h) r = None /\
        Store.comments h' r = Some (getReplies cs p))
  /\ (exists h',
        OnStore.getCommentCounts a h = Some (getCommentCounts cs, h') /\
        Store.unchanged h h' /\ Store.comments h' a = Some cs).
Proof.
  intros Ha. split; [| split].
  - destruct (@StoreFacts.getTopLevelComments_run localeCompare h a cs s t f o Ha)
      as (r & h' & E & Hu & Hn & Hf).
    exists r, h'. repeat split; auto; try apply Hu; try apply Hf.
    now apply StoreFacts.comments_unchanged with h.
  - destruct (@StoreFacts.getReplies_run h a cs p Ha) as (r & h' & E & Hu & Hc & Hr).
    exists r, h'. repeat split; auto; try apply Hu.
    now apply StoreFacts.comments_unchanged with h.
  - destruct (@StoreFacts.getCommentCounts_run h a cs Ha) as (h' & E & Hu).
    exists h'. repeat split; auto; try apply Hu.
    now apply StoreFacts.comments_unchanged with h.
Qed.

Lemma C9_inputs_unchanged_witness :
  Store.comments sampleStore 0%nat = Some sampleComments
  /\ exists r h',
       OnStore.getTopLevelComments codeUnitCompare 0%nat "" "all" noFilters
         "newest" sampleStore
       = Some (r, h') /\
       Store.unchanged sampleStore h' /\
       Store.comments h' 0%nat = Some sampleComments /\
       Store.freshArray sampleStore h' r /\
       Store.numbered h' r
       = Some (getTopLevelComments codeUnitCompare sampleComments "" "all"
                 noFilters "newest").
Proof.
  split; [reflexivity |].
  apply (@C9_inputs_unchanged codeUnitCompare sampleStore 0%nat sampleComments
           "" "all" noFilters "newest" "1" eq_refl).
Defined.

(** * More of the components *)

Unset Implicit Arguments.

(** ** Strings and arrays *)

Module JsLibFacts.
Import JsLib.

Lemma length_app a b : length (a ++ b) = length a + length b.
Proof.
  unfold length. induction a as [|c a IH]; simpl String.length; [lia |].
  rewrite !Nat2Z.inj_succ. simpl in IH. lia.
Qed.

Lemma length_nonneg s : 0 <= length s.
Proof. unfold length. lia. Qed.

Lemma length_zero s : length s = 0 -> s = "".
Proof. unfold length. destruct s; simpl; [reflexivity | lia]. Qed.

(** *** [substring] *)

Lemma prefix_of_app a b :
  String.substring 0 (String.length a) (a ++ b) = a.
Proof. induction a as [|c a IH]; simpl; [now destruct b | now rewrite IH]. Qed.

Lemma prefix_length n s :
  String.length (String.substring 0 n s) = Nat.min n (String.length s).
Proof.
  revert s; induction n as [|n IH]; intros [|c s]; simpl; try reflexivity.
  now rewrite IH.
Qed.

Lemma prefix_split n s :
  exists rest, s = String.substring 0 n s ++ rest.
Proof.
  revert s; induction n as [|n IH]; intros [|c s]; simpl.
  - now exists "".
  - now exists (String c s).
  - now exists "".
  - destruct (IH s) as [rest Hr]. exists rest. now rewrite <- Hr.
Qed.

Lemma substring_from_0 s k :
  substring s 0 k
  = String.substring 0 (Z.to_nat (Z.max 0 (Z.min k (length s)))) s.
Proof.
  unfold substring. pose proof (length_nonneg s).
  replace (Z.max 0 (Z.min 0 (length s))) with 0 by lia.
  rewrite Z.min_l, Z.max_r by lia. now rewrite Z.sub_0_r.
Qed.

Lemma substring_length s k :
  length (substring s 0 k) = Z.max 0 (Z.min k (length s)).
Proof.
  rewrite substring_from_0. unfold length at 1. rewrite prefix_length.
  unfold length. lia.
Qed.

Lemma substring_nonpositive s k : k <= 0 -> substring s 0 k = "".
Proof.
  intros Hk. apply length_zero. rewrite substring_length.
  pose proof (length_nonneg s). lia.
Qed.

Lemma substring_prefix a b : substring (a ++ b) 0 (length a) = a.
Proof.
  rewrite substring_from_0, length_app.
  pose proof (length_nonneg a). pose proof (length_nonneg b).
  rewrite Z.min_l, Z.max_r by lia. unfold length.
  rewrite Nat2Z.id. apply prefix_of_app.
Qed.

(** *** [split], [pop] and [lastIndexOf] *)

Lemma includes_char_cons d r c :
  includes (String d r) (String c "") = Ascii.eqb c d || includes r (String c "").
Proof. simpl. now rewrite andb_true_r. Qed.

Lemma split_not_nil sep s : split sep s <> [].
Proof.
  destruct s as [|c s]; simpl; [discriminate |].
  destruct (Ascii.eqb c sep); [discriminate |].
  destruct (split sep s); discriminate.
Qed.

Lemma split_without sep s :
  includes s (String sep "") = false -> split sep s = [s].
Proof.
  induction s as [|c s IH]; [reflexivity |].
  rewrite includes_char_cons. intros H. apply orb_false_iff in H as [Hc Hs].
  simpl. rewrite Ascii.eqb_sym, Hc. now rewrite (IH Hs).
Qed.

Lemma split_app sep a b :
  split sep (a ++ String sep b) = (split sep a ++ split sep b)%list.
Proof.
  induction a as [|c a IH]; simpl.
  - now rewrite Ascii.eqb_refl.
  - destruct (Ascii.eqb c sep); [now rewrite IH |].
    rewrite IH. pose proof (split_not_nil sep a).
    destruct (split sep a); [contradiction | reflexivity].
Qed.

Lemma pop_app A (l1 l2 : list A) : l2 <> [] -> pop (l1 ++ l2)%list = pop l2.
Proof.
  intros H. induction l1 as [|x l1 IH]; [reflexivity |].
  simpl. rewrite IH. destruct (l1 ++ l2)%list eqn:E; [| reflexivity].
  apply app_eq_nil in E as [_ E]. contradiction.
Qed.

Lemma lastIndexOfFrom_without i c s :
  includes s (String c "") = false -> lastIndexOfFrom i c s = -1.
Proof.
  revert i; induction s as [|d s IH]; intros i; [reflexivity |].
  rewrite includes_char_cons. intros H. apply orb_false_iff in H as [Hc Hs].
  simpl. rewrite (IH _ Hs). simpl. now rewrite Ascii.eqb_sym, Hc.
Qed.

Lemma lastIndexOfFrom_app i c a b :
  0 <= i -> includes b (String c "") = false ->
  lastIndexOfFrom i c (a ++ String c b) = i + length a.
Proof.
  revert i; induction a as [|d a IH]; intros i Hi Hb; simpl.
  - rewrite lastIndexOfFrom_without by exact Hb. simpl.
    rewrite Ascii.eqb_refl. unfold length. simpl. lia.
  - rewrite IH by (auto; lia).
    pose proof (length_nonneg a).
    replace (0 <=? i + 1 + length a) with true by (symmetry; apply Z.leb_le; lia).
    unfold length. simpl String.length. lia.
Qed.

(** The extension and the stem that [truncateFileName] computes for a name
    with a dot. *)
Lemma extension_of stem ext :
  includes ext "." = false ->
  pop (split "." (stem ++ "." ++ ext)) = Some ext /\
  lastIndexOf "." (stem ++ "." ++ ext) = length stem.
Proof.
  intros H. split.
  - change (stem ++ "." ++ ext) with (stem ++ String "." ext).
    rewrite split_app, pop_app by apply split_not_nil.
    now rewrite split_without by exact H.
  - unfold lastIndexOf.
    change (stem ++ "." ++ ext) with (stem ++ String "." ext).
    rewrite lastIndexOfFrom_app by (auto; lia). lia.
Qed.

(** *** [trim] *)

Lemma Blank_nil : Blank "".
Proof. constructor. Qed.

Lemma Blank_cons c s :
  Blank (String c s) <-> isWhiteSpace c = true /\ Blank s.
Proof.
  unfold Blank. simpl. split.
  - intros H. inversion H; subst. now split.
  - intros [Hc Hs]. now constructor.
Qed.

Lemma trimStart_spec s :
  exists a, s = a ++ trimStart s /\ Blank a /\
    (trimStart s = "" \/
     exists c r, trimStart s = String c r /\ isWhiteSpace c = false).
Proof.
  induction s as [|c s (a & Hs & Ha & Hfirst)]; simpl.
  - exists "". split; [reflexivity |]. split; [apply Blank_nil | now left].
  - destruct (isWhiteSpace c) eqn:Hc.
    + exists (String c a). split; [simpl; now rewrite <- Hs |].
      split; [now apply Blank_cons | exact Hfirst].
    + exists "". split; [reflexivity |]. split; [apply Blank_nil |].
      right. now exists c, s.
Qed.

Lemma trimEnd_spec s :
  exists b, s = trimEnd s ++ b /\ Blank b /\
    (trimEnd s = "" \/
     exists r c, trimEnd s = r ++ String c "" /\ isWhiteSpace c = false).
Proof.
  induction s as [|c s (b & Hs & Hb & Hlast)]; simpl.
  - exists "". split; [reflexivity |]. split; [apply Blank_nil | now left].
  - destruct (trimEnd s) as [|d r'] eqn:Ht.
    + simpl in Hs. subst b. destruct (isWhiteSpace c) eqn:Hc.
      * exists (String c s). split; [reflexivity |].
        split; [now apply Blank_cons | now left].
      * exists s. split; [reflexivity |]. split; [exact Hb |].
        right. now exists "", c.
    + exists b. split; [simpl in Hs |- *; now rewrite <- Hs |].
      split; [exact Hb |].
      right. destruct Hlast as [Hlast | (r & e & Hr & He)]; [discriminate |].
      exists (String c r), e. simpl. now rewrite <- Hr.
Qed.

Lemma trimEnd_first c r :
  isWhiteSpace c = false -> exists r', trimEnd (String c r) = String c r'.
Proof.
  intros Hc. simpl. destruct (trimEnd r) as [|d r'].
  - rewrite Hc. now exists "".
  - now exists (String d r').
Qed.

(** [trim] removes a blank prefix and a blank suffix, and what is left is
    empty or starts and ends with a code unit that is not white space. *)
Lemma trim_spec s :
  exists a b, s = a ++ trim s ++ b /\ Blank a /\ Blank b /\
    (trim s = "" \/
     (exists c r, trim s = String c r /\ isWhiteSpace c = false) /\
     (exists r c, trim s = r ++ String c "" /\ isWhiteSpace c = false)).
Proof.
  unfold trim.
  destruct (trimStart_spec s) as (a & Hs & Ha & Hfirst).
  destruct (trimEnd_spec (trimStart s)) as (b & Ht & Hb & Hlast).
  exists a, b. split; [now rewrite <- Ht |]. split; [exact Ha |].
  split; [exact Hb |].
  destruct Hlast as [Hlast | Hlast]; [now left |]. right. split; [| exact Hlast].
  destruct Hfirst as [Hfirst | (c & r & Hc & Hws)].
  - destruct Hlast as (r & c & Hr & _). rewrite Hfirst in Hr.
    destruct r; discriminate.
  - rewrite Hc. destruct (@trimEnd_first c r Hws) as [r' Hr'].
    now exists c, r'.
Qed.

Lemma Blank_app a b : Blank (a ++ b) <-> Blank a /\ Blank b.
Proof.
  induction a as [|c a IH]; simpl.
  - split; [intros H; split; [apply Blank_nil | exact H] | tauto].
  - rewrite !Blank_cons, IH. tauto.
Qed.

Lemma trim_blank s : truthy (trim s) = false <-> Blank s.
Proof.
  rewrite truthy_false.
  destruct (trim_spec s) as (a & b & Hs & Ha & Hb & Hends). split.
  - intros Ht. rewrite Hs, Ht. simpl. apply Blank_app. now split.
  - intros Hbl. destruct Hends as [Ht | [(c & r & Hc & Hws) _]]; [exact Ht |].
    rewrite Hs, Hc in Hbl. apply Blank_app in Hbl as [_ Hbl].
    simpl in Hbl. apply Blank_cons in Hbl as [Hbl _]. congruence.
Qed.

End JsLibFacts.

(** ** Attachment names *)

Lemma not_Contains_includes s sub :
  ~ Contains s sub -> includes s sub = false.
Proof.
  intros H. destruct (includes s sub) eqn:E; [| reflexivity].
  apply includes_spec in E. contradiction.
Qed.

Lemma truthy_nonempty s : s <> "" -> truthy s = true.
Proof. destruct s; [congruence | reflexivity]. Qed.

(** The long name with a non-empty extension: a prefix of the stem, three
    dots, the whole extension. *)
Lemma truncateFileName_extension stem ext maxLength :
  includes ext "." = false -> ext <> "" ->
  maxLength < JsLib.length (stem ++ "." ++ ext) ->
  Panel.truncateFileName (stem ++ "." ++ ext) maxLength
  = JsLib.substring stem 0 (maxLength - (JsLib.length ext + 4))
    ++ "..." ++ ext.
Proof.
  intros Hdot Hne Hlong. unfold Panel.truncateFileName.
  destruct (JsLibFacts.extension_of stem ext Hdot) as [Hpop Hlast].
  rewrite Hpop, Hlast. cbv zeta.
  replace (JsLib.length (stem ++ "." ++ ext) <=? maxLength) with false
    by (symmetry; apply Z.leb_gt; exact Hlong).
  rewrite (truthy_nonempty ext Hne), JsLibFacts.substring_prefix.
  rewrite !JsLibFacts.length_app in Hlong.
  change (JsLib.length ".") with 1 in Hlong.
  replace (maxLength - (JsLib.length ext + 4) <? JsLib.length stem) with true
    by (symmetry; apply Z.ltb_lt; lia).
  reflexivity.
Qed.

(** X1. A name longer than [maxLength] whose extension (the part after the
    last dot) is not empty is cut inside its stem and keeps its whole
    extension: the result is a prefix of the stem, three dots and the
    extension. When the extension and four more characters fit in
    [maxLength], the result has exactly [maxLength - 1] characters. *)
Theorem X1_truncateFileName_keeps_extension
    (stem ext : string) (maxLength : Z) :
  ~ Contains ext "." -> ext <> "" ->
  maxLength < JsLib.length (stem ++ "." ++ ext) ->
  Panel.truncateFileName (stem ++ "." ++ ext) maxLength
  = JsLib.substring stem 0 (maxLength - (JsLib.length ext + 4))
    ++ "..." ++ ext
  /\ (JsLib.length ext + 4 <= maxLength ->
      JsLib.length (Panel.truncateFileName (stem ++ "." ++ ext) maxLength)
      = maxLength - 1).
Proof.
  intros Hdot Hne Hlong. apply not_Contains_includes in Hdot.
  rewrite (truncateFileName_extension stem ext maxLength Hdot Hne Hlong).
  split; [reflexivity |]. intros Hfit.
  rewrite !JsLibFacts.length_app, JsLibFacts.substring_length.
  rewrite !JsLibFacts.length_app in Hlong.
  change (JsLib.length ".") with 1 in Hlong.
  change (JsLib.length "...") with 3. lia.
Qed.

Lemma X1_truncateFileName_keeps_extension_witness :
  Panel.truncateFileName ("averyveryverylongfilename" ++ "." ++ "png") 20
  = "averyveryvery...png".
Proof.
  refine (eq_trans
            (proj1 (X1_truncateFileName_keeps_extension
                      "averyveryverylongfilename" "png" 20 _ _ _)) _).
  - rewrite <- includes_spec. discriminate.
  - discriminate.
  - reflexivity.
  - reflexivity.
Defined.

(** X2. A name with a dot whose extension leaves room for four more
    characters within [maxLength] is displayed in at most [maxLength]
    characters, whether it is cut or not. *)
Theorem X2_truncateFileName_fits (stem ext : string) (maxLength : Z) :
  ~ Contains ext "." ->
  JsLib.length ext + 4 <= maxLength ->
  JsLib.length (Panel.truncateFileName (stem ++ "." ++ ext) maxLength)
  <= maxLength.
Proof.
  intros Hdot Hfit. apply not_Contains_includes in Hdot.
  destruct (Z.leb_spec (JsLib.length (stem ++ "." ++ ext)) maxLength)
    as [Hshort | Hlong].
  - unfold Panel.truncateFileName.
    replace (JsLib.length (stem ++ "." ++ ext) <=? maxLength) with true
      by (symmetry; apply Z.leb_le; exact Hshort).
    exact Hshort.
  - destruct ext as [|c ext].
    + unfold Panel.truncateFileName.
      destruct (JsLibFacts.extension_of stem "" Hdot) as [Hpop _].
      rewrite Hpop. cbv zeta.
      replace (JsLib.length (stem ++ "." ++ "") <=? maxLength) with false
        by (symmetry; apply Z.leb_gt; exact Hlong).
      simpl truthy. cbv iota. simpl andb. cbv iota.
      rewrite JsLibFacts.length_app, JsLibFacts.substring_length.
      change (JsLib.length "...") with 3. change (JsLib.length "") with 0 in Hfit.
      lia.
    + rewrite (truncateFileName_extension stem (String c ext) maxLength Hdot)
        by (congruence || exact Hlong).
      rewrite !JsLibFacts.length_app, JsLibFacts.substring_length.
      rewrite !JsLibFacts.length_app in Hlong.
      change (JsLib.length ".") with 1 in Hlong.
      change (JsLib.length "...") with 3. lia.
Qed.

Lemma X2_truncateFileName_fits_witness :
  JsLib.length
    (Panel.truncateFileName ("archive.tar.gz.with.many.dots" ++ "." ++ "txt")
       15)
  <= 15.
Proof.
  apply X2_truncateFileName_fits.
  - rewrite <- includes_spec. discriminate.
  - discriminate.
Defined.

(** X3. A name without any dot that is longer than [maxLength] is not
    shortened: the result is three dots followed by the whole name. *)
Theorem X3_truncateFileName_without_dot (name : string) (maxLength : Z) :
  ~ Contains name "." ->
  maxLength < JsLib.length name ->
  Panel.truncateFileName name maxLength = "..." ++ name.
Proof.
  intros Hdot Hlong. apply not_Contains_includes in Hdot.
  unfold Panel.truncateFileName.
  replace (JsLib.length name <=? maxLength) with false
    by (symmetry; apply Z.leb_gt; exact Hlong).
  rewrite JsLibFacts.split_without by exact Hdot.
  unfold JsLib.lastIndexOf.
  rewrite JsLibFacts.lastIndexOfFrom_without by exact Hdot.
  cbn [JsLib.pop]. cbv zeta.
  rewrite (JsLibFacts.substring_nonpositive name (-1)) by lia.
  change (JsLib.length "") with 0.
  pose proof (JsLibFacts.length_nonneg name) as Hpos.
  destruct (truthy name) eqn:Hname; cbn [andb].
  - destruct (Z.ltb_spec (maxLength - (JsLib.length name + 4)) 0)
      as [_ | Hge]; [| lia].
    rewrite JsLibFacts.substring_nonpositive by lia. reflexivity.
  - apply truthy_false in Hname. subst name.
    change (JsLib.length "") with 0 in Hlong.
    rewrite JsLibFacts.substring_nonpositive by lia. reflexivity.
Qed.

Lemma X3_truncateFileName_without_dot_witness :
  Panel.truncateFileName "averyveryverylongfilenamenoext" 20
  = "...averyveryverylongfilenamenoext".
Proof.
  apply X3_truncateFileName_without_dot.
  - rewrite <- includes_spec. discriminate.
  - reflexivity.
Defined.

(** ** Attachment icons *)

(** X4. The comment panel and the comment input give an attachment the
    same colour class, except for a type that is not an image, a video,
    an audio or the PDF type and that contains both one of "text",
    "document" and one of "zip", "rar", "archive": the panel tests the
    text words first, the input the archive words. *)
Theorem X4_file_icon_colours_agree (a : AttachmentWithType) (size : Z) :
  Panel.className (Panel.getFileTypeIcon a size)
  = Input.className (Input.getFileTypeIcon a)
  <-> ((exists t, type a = "image/" ++ t) \/
       (exists t, type a = "video/" ++ t) \/
       (exists t, type a = "audio/" ++ t) \/
       type a = "application/pdf" \/
       ~ (Contains (type a) "text" \/ Contains (type a) "document") \/
       ~ (Contains (type a) "zip" \/ Contains (type a) "rar" \/
          Contains (type a) "archive")).
Proof.
  rewrite <- !startsWith_spec, <- !includes_spec.
  unfold Panel.getFileTypeIcon, Input.getFileTypeIcon. cbv zeta.
  destruct (startsWith (type a) "image/"); [simpl; intuition |].
  destruct (startsWith (type a) "video/"); [simpl; intuition |].
  destruct (startsWith (type a) "audio/"); [simpl; intuition |].
  destruct (String.eqb_spec (type a) "application/pdf"); [simpl; intuition |].
  destruct (includes (type a) "text"), (includes (type a) "document"),
    (includes (type a) "zip"), (includes (type a) "rar"),
    (includes (type a) "archive"); simpl;
    intuition (try discriminate; try congruence).
Qed.

(** ** The reply box and the filter controls *)

(** X5. [handleReply] sends nothing and changes nothing while the reply text
    is blank. Otherwise it calls [onReplyComment] once, with the parent id
    and the reply text without its blank ends (the text sent starts and ends
    with a code unit that is not white space), closes the reply box, empties
    the reply text, and leaves the list of comments shown as it is. *)
Theorem X5_handleReply_sends_trimmed_text
    (localeCompare : string -> string -> Z) (comments : list Comment)
    (parentId : string) (st : Panel.State) :
  (Blank (Panel.replyText st) -> Panel.handleReply parentId st = (None, st))
  /\ (~ Blank (Panel.replyText st) ->
      exists reply before after,
        fst (Panel.handleReply parentId st) = Some (parentId, reply) /\
        Panel.replyText st = before ++ reply ++ after /\
        Blank before /\ Blank after /\
        (exists c r, reply = String c r /\ JsLib.isWhiteSpace c = false) /\
        (exists r c, reply = r ++ String c "" /\
                     JsLib.isWhiteSpace c = false) /\
        Panel.replyingTo (snd (Panel.handleReply parentId st)) = None /\
        Panel.replyText (snd (Panel.handleReply parentId st)) = "" /\
        Panel.getTopLevelComments localeCompare comments
          (snd (Panel.handleReply parentId st))
        = Panel.getTopLevelComments localeCompare comments st).
Proof.
  unfold Panel.handleReply. split.
  - intros Hb. apply JsLibFacts.trim_blank in Hb. now rewrite Hb.
  - intros Hnb.
    destruct (truthy (JsLib.trim (Panel.replyText st))) eqn:Ht.
    + destruct (JsLibFacts.trim_spec (Panel.replyText st))
        as (a & b & Hs & Ha & Hb & [He | [Hfirst Hlast]]).
      * rewrite He in Ht. discriminate.
      * exists (JsLib.trim (Panel.replyText st)), a, b. simpl.
        repeat split; auto.
    + apply JsLibFacts.trim_blank in Ht. contradiction.
Qed.

Lemma X5_handleReply_sends_trimmed_text_witness :
  fst (Panel.handleReply "1"
         {| Panel.replyingTo := Some "1"; Panel.replyText := "  fine by me ";
            Panel.searchTerm := "bob"; Panel.selectedCommentType := "all";
            Panel.sortBy := "newest"; Panel.filters := noFilters;
            Panel.selectedAttachment := None;
            Panel.selectedAttachmentIndex := 0;
            Panel.isAttachmentViewerOpen := false |})
  = Some ("1", "fine by me").
Proof.
  destruct (proj2 (X5_handleReply_sends_trimmed_text codeUnitCompare
                     sampleComments "1"
                     {| Panel.replyingTo := Some "1";
                        Panel.replyText := "  fine by me ";
                        Panel.searchTerm := "bob";
                        Panel.selectedCommentType := "all";
                        Panel.sortBy := "newest"; Panel.filters := noFilters;
                        Panel.selectedAttachment := None;
                        Panel.selectedAttachmentIndex := 0;
                        Panel.isAttachmentViewerOpen := false |}))
    as (reply & before & after & Hsent & _).
  - intros H. apply JsLibFacts.trim_blank in H. discriminate H.
  - reflexivity.
Defined.

Lemma filter_length_le A (p q : A -> bool) (l : list A) :
  (forall x, p x = true -> q x = true) ->
  (List.length (filter p l) <= List.length (filter q l))%nat.
Proof.
  intros H. induction l as [|x l IH]; simpl; [lia |].
  destruct (p x) eqn:Hp.
  - rewrite (H x Hp). simpl. lia.
  - destruct (q x); simpl; lia.
Qed.

Lemma view_length localeCompare cs s t f o :
  List.length (getTopLevelComments localeCompare cs s t f o)
  = List.length (filter (visible s t f) cs).
Proof.
  rewrite view_eq, length_map. apply JsArrayFacts.sort_length.
Qed.

Lemma tab_count cs t :
  List.length (filter (fun c => noParent c && passesType t c) cs)
  = if String.eqb t "public" then public (getCommentCounts cs)
    else if String.eqb t "internal" then internal (getCommentCounts cs)
    else all (getCommentCounts cs).
Proof.
  unfold passesType, getCommentCounts. simpl.
  destruct (String.eqb t "public"); [now rewrite filter_filter_andb |].
  destruct (String.eqb t "internal"); [now rewrite filter_filter_andb |].
  f_equal. apply filter_ext. intros c. apply andb_true_r.
Qed.

(** X6. After [handleClearFilters] the panel lists every top-level comment,
    by ascending timestamp, so as many as the "all" count; the reply box is
    left as it is, and clearing twice is clearing once. *)
Theorem X6_handleClearFilters_shows_all
    (localeCompare : string -> string -> Z) (comments : list Comment)
    (st : Panel.State) :
  Permutation
    (commentsOf (Panel.getTopLevelComments localeCompare comments
                   (Panel.handleClearFilters st)))
    (filter noParent comments)
  /\ StronglySorted (fun a b => timestamp a <= timestamp b)
       (commentsOf (Panel.getTopLevelComments localeCompare comments
                      (Panel.handleClearFilters st)))
  /\ List.length (Panel.getTopLevelComments localeCompare comments
                    (Panel.handleClearFilters st))
     = all (getCommentCounts comments)
  /\ Panel.replyingTo (Panel.handleClearFilters st) = Panel.replyingTo st
  /\ Panel.replyText (Panel.handleClearFilters st) = Panel.replyText st
  /\ Panel.handleClearFilters (Panel.handleClearFilters st)
     = Panel.handleClearFilters st.
Proof.
  unfold Panel.getTopLevelComments. simpl.
  assert (Hv : filter (visible "" "all"
                         (CommentFilters.mk false false false false false
                            false)) comments
               = filter noParent comments).
  { apply filter_ext. intros c. unfold visible. simpl.
    now rewrite !andb_true_r. }
  split; [| split; [| split]].
  - rewrite commentsOf_view, Hv. apply JsArrayFacts.sort_perm.
  - now apply view_by_timestamp.
  - now rewrite view_length, Hv.
  - repeat split.
Qed.

(** X7. The panel never lists more comments than the count shown on the
    selected type tab, and it lists exactly that many when the search term
    is empty and the attachments filter is off. *)
Theorem X7_tab_count_matches_list
    (localeCompare : string -> string -> Z) (comments : list Comment)
    (st : Panel.State) :
  (List.length (Panel.getTopLevelComments localeCompare comments st)
   <= if String.eqb (Panel.selectedCommentType st) "public"
      then public (getCommentCounts comments)
      else if String.eqb (Panel.selectedCommentType st) "internal"
      then internal (getCommentCounts comments)
      else all (getCommentCounts comments))%nat
  /\ (Panel.searchTerm st = "" ->
      CommentFilters.attachments (Panel.filters st) = false ->
      List.length (Panel.getTopLevelComments localeCompare comments st)
      = if String.eqb (Panel.selectedCommentType st) "public"
        then public (getCommentCounts comments)
        else if String.eqb (Panel.selectedCommentType st) "internal"
        then internal (getCommentCounts comments)
        else all (getCommentCounts comments)).
Proof.
  unfold Panel.getTopLevelComments. rewrite view_length, <- tab_count. split.
  - apply filter_length_le. intros c. unfold visible.
    rewrite !andb_true_iff. tauto.
  - intros Hs Hf. f_equal. apply filter_ext. intros c.
    unfold visible, passesSearch, passesAdvanced. rewrite Hs, Hf. simpl.
    now rewrite !andb_true_r.
Qed.

Lemma X7_tab_count_matches_list_witness :
  List.length
    (Panel.getTopLevelComments codeUnitCompare sampleComments
       {| Panel.replyingTo := None; Panel.replyText := "";
          Panel.searchTerm := ""; Panel.selectedCommentType := "internal";
          Panel.sortBy := "commenter"; Panel.filters := noFilters;
          Panel.selectedAttachment := None;
          Panel.selectedAttachmentIndex := 0;
          Panel.isAttachmentViewerOpen := false |})
  = internal (getCommentCounts sampleComments).
Proof.
  apply (proj2 (X7_tab_count_matches_list codeUnitCompare sampleComments
                  {| Panel.replyingTo := None; Panel.replyText := "";
                     Panel.searchTerm := "";
                     Panel.selectedCommentType := "internal";
                     Panel.sortBy := "commenter"; Panel.filters := noFilters;
                     Panel.selectedAttachment := None;
                     Panel.selectedAttachmentIndex := 0;
                     Panel.isAttachmentViewerOpen := false |}));
    reflexivity.
Defined.

(** ** The numbers shown in the list *)

Lemma numberOf_anchored cs c :
  NoDup (map id cs) -> In c cs -> noParent c = true -> 0 <= timestamp c ->
  exists k, numberOf cs c = Z.of_nat k + 1 /\
            nth_error (allTopLevelByTimestamp cs) k = Some c.
Proof.
  intros Hnd Hin Htop Hts.
  assert (Hr : In c (allTopLevelByTimestamp cs))
    by (apply In_allTopLevelByTimestamp; tauto).
  destruct (JsArrayFacts.findIndexFrom_some
              (fun d => String.eqb (id d) (id c)) 0 _ _ Hr
              (String.eqb_refl _)) as (k & d & Hk & Hnth & Hd & _).
  exists k. split; [unfold numberOf, JsArray.findIndex; lia |].
  rewrite Hnth. f_equal. apply String.eqb_eq in Hd.
  apply (NoDup_map_eq id cs); auto.
  apply nth_error_In in Hnth. now apply In_allTopLevelByTimestamp in Hnth.
Qed.

Lemma numberOf_general cs c :
  NoDup (map id cs) -> In c cs -> timestamp c < 0 -> numberOf cs c = 0.
Proof.
  intros Hnd Hin Hts. unfold numberOf, JsArray.findIndex.
  rewrite JsArrayFacts.findIndexFrom_none; [reflexivity |].
  intros d Hd. apply String.eqb_neq. intros Hid.
  apply In_allTopLevelByTimestamp in Hd as (Hd & _ & Hdts).
  assert (d = c) by (apply (NoDup_map_eq id cs); auto).
  subst d. lia.
Qed.

Lemma allTopLevelByTimestamp_length cs :
  List.length (allTopLevelByTimestamp cs)
  = List.length (filter (fun c => noParent c && (0 <=? timestamp c)) cs).
Proof. apply JsArrayFacts.sort_length. Qed.

(** X8. With unique ids, a comment of the list carries a number from 1 up
    to the count of time-anchored top-level comments exactly when it is
    time-anchored, and 0 (shown as "G") otherwise; two listed comments with
    the same number from 1 up are the same comment; and a click on a listed
    comment, outside its interactive elements, seeks the player exactly
    when the comment carries such a number. *)
Theorem X8_numbers_identify_comments
    (localeCompare : string -> string -> Z) (comments : list Comment)
    (st : Panel.State) (e1 e2 : NumberedComment) :
  NoDup (map id comments) ->
  In e1 (Panel.getTopLevelComments localeCompare comments st) ->
  In e2 (Panel.getTopLevelComments localeCompare comments st) ->
  (0 <= timestamp (comment e1) ->
   1 <= commentNumber e1
     <= Z.of_nat (List.length
                    (filter (fun c => noParent c && (0 <=? timestamp c))
                       comments)))
  /\ (timestamp (comment e1) < 0 -> commentNumber e1 = 0)
  /\ (1 <= commentNumber e1 -> commentNumber e1 = commentNumber e2 ->
      e1 = e2)
  /\ (Panel.handleCommentClick (comment e1) false
      = if 1 <=? commentNumber e1 then Some (timestamp (comment e1))
        else None).
Proof.
  unfold Panel.getTopLevelComments. intros Hnd H1 H2.
  apply In_view in H1 as (Hin1 & Hv1 & Hn1).
  apply In_view in H2 as (Hin2 & Hv2 & Hn2).
  assert (Htop : forall e,
             visible (Panel.searchTerm st) (Panel.selectedCommentType st)
               (Panel.filters st) (comment e) = true ->
             noParent (comment e) = true).
  { intros e Hv. unfold visible in Hv. rewrite !andb_true_iff in Hv. tauto. }
  assert (Hanch : forall e, In (comment e) comments ->
             noParent (comment e) = true ->
             commentNumber e = numberOf comments (comment e) ->
             0 <= timestamp (comment e) ->
             exists k, commentNumber e = Z.of_nat k + 1 /\
                       nth_error (allTopLevelByTimestamp comments) k
                       = Some (comment e)).
  { intros e Hin Ht Hn Hts. rewrite Hn. now apply numberOf_anchored. }
  assert (Hgen : forall e, In (comment e) comments ->
             commentNumber e = numberOf comments (comment e) ->
             timestamp (comment e) < 0 -> commentNumber e = 0).
  { intros e Hin Hn Hts. rewrite Hn. now apply numberOf_general. }
  split; [| split; [| split]].
  - intros Hts.
    destruct (Hanch e1 Hin1 (Htop e1 Hv1) Hn1 Hts) as (k & Hk & Hnth).
    assert (Hlt : (k < List.length (allTopLevelByTimestamp comments))%nat)
      by (apply nth_error_Some; congruence).
    rewrite allTopLevelByTimestamp_length in Hlt. lia.
  - now apply Hgen.
  - intros Hpos Heq.
    destruct (Z.lt_ge_cases (timestamp (comment e1)) 0) as [Hneg | Hts1];
      [rewrite (Hgen e1 Hin1 Hn1 Hneg) in Hpos; lia |].
    destruct (Z.lt_ge_cases (timestamp (comment e2)) 0) as [Hneg | Hts2];
      [rewrite (Hgen e2 Hin2 Hn2 Hneg) in Heq; lia |].
    destruct (Hanch e1 Hin1 (Htop e1 Hv1) Hn1 Hts1) as (k1 & Hk1 & Hnth1).
    destruct (Hanch e2 Hin2 (Htop e2 Hv2) Hn2 Hts2) as (k2 & Hk2 & Hnth2).
    assert (k1 = k2) by lia. subst k2.
    assert (Hc : comment e1 = comment e2) by congruence.
    destruct e1, e2; simpl in *. congruence.
  - unfold Panel.handleCommentClick. simpl.
    destruct (Z.leb_spec 0 (timestamp (comment e1))) as [Hts | Hneg].
    + destruct (Hanch e1 Hin1 (Htop e1 Hv1) Hn1 Hts) as (k & Hk & _).
      replace (1 <=? commentNumber e1) with true
        by (symmetry; apply Z.leb_le; lia).
      reflexivity.
    + now rewrite (Hgen e1 Hin1 Hn1 Hneg).
Qed.

Lemma X8_numbers_identify_comments_witness :
  Panel.handleCommentClick comment3 false = None
  /\ Panel.handleCommentClick comment5 false = Some 5.
Proof.
  assert (Hids : NoDup (map id sampleComments)).
  { simpl. repeat constructor; simpl; intuition discriminate. }
  assert (H3 : In {| comment := comment3; commentNumber := 0 |}
                 (Panel.getTopLevelComments codeUnitCompare sampleComments
                    Panel.initial)) by (vm_compute; auto).
  assert (H5 : In {| comment := comment5; commentNumber := 3 |}
                 (Panel.getTopLevelComments codeUnitCompare sampleComments
                    Panel.initial)) by (vm_compute; auto 6).
  split.
  - exact (proj2 (proj2 (proj2 (X8_numbers_identify_comments codeUnitCompare
                                  sampleComments Panel.initial _ _
                                  Hids H3 H3)))).
  - exact (proj2 (proj2 (proj2 (X8_numbers_identify_comments codeUnitCompare
                                  sampleComments Panel.initial _ _
                                  Hids H5 H5)))).
Defined.

(** *** The stable sort commutes with filtering *)

Section SortFilter.
Variable A : Type.
Variable cmp : A -> A -> Z.
Hypothesis cmp_total : forall x y, cmp x y <= 0 \/ cmp y x <= 0.
Hypothesis cmp_trans :
  forall x y z, cmp x y <= 0 -> cmp y z <= 0 -> cmp x z <= 0.
Variable P : A -> bool.

Lemma insert_first x l :
  (forall z, In z l -> cmp x z <= 0) -> JsArray.insert cmp x l = x :: l.
Proof.
  destruct l as [|y l]; [reflexivity |]. intros H. simpl.
  replace (cmp x y <=? 0) with true; [reflexivity |].
  symmetry. apply Z.leb_le. apply H. now left.
Qed.

Lemma insert_filter_commute x l :
  StronglySorted (fun a b => cmp a b <= 0) l ->
  filter P (JsArray.insert cmp x l)
  = if P x then JsArray.insert cmp x (filter P l) else filter P l.
Proof.
  induction 1 as [|y l Hs IH Hall]; simpl.
  - now destruct (P x).
  - destruct (cmp x y <=? 0) eqn:Hc.
    + apply Z.leb_le in Hc. simpl. destruct (P x); [| reflexivity].
      symmetry. apply insert_first. intros z Hz.
      change (In z (filter P (y :: l))) in Hz.
      apply filter_In in Hz as [[<- | Hz] _]; [exact Hc |].
      rewrite Forall_forall in Hall. apply cmp_trans with y; auto.
    + simpl. rewrite IH. destruct (P y), (P x); simpl; try reflexivity.
      now rewrite Hc.
Qed.

Lemma sort_filter_commute l :
  filter P (JsArray.sort cmp l) = JsArray.sort cmp (filter P l).
Proof.
  induction l as [|x l IH]; [reflexivity |].
  simpl JsArray.sort. rewrite insert_filter_commute
    by (apply JsArrayFacts.sort_sorted; assumption).
  rewrite IH. simpl. now destruct (P x).
Qed.

End SortFilter.

Lemma filter_all A (p : A -> bool) l :
  Forall (fun x => p x = true) l -> filter p l = l.
Proof.
  induction 1 as [|x l Hx Hl IH]; simpl; [reflexivity |].
  now rewrite Hx, IH.
Qed.

Lemma filter_none A (p : A -> bool) l :
  Forall (fun x => p x = false) l -> filter p l = [].
Proof.
  induction 1 as [|x l Hx Hl IH]; simpl; [reflexivity |]. now rewrite Hx.
Qed.

(** A list sorted by timestamp is its general comments followed by its
    time-anchored ones. *)
Lemma sorted_generals_first l :
  StronglySorted (fun a b => timestamp a <= timestamp b) l ->
  l = (filter (fun c => timestamp c <? 0) l
       ++ filter (fun c => 0 <=? timestamp c) l)%list.
Proof.
  induction 1 as [|x l Hs IH Hall]; [reflexivity |]. simpl.
  destruct (Z.ltb_spec (timestamp x) 0) as [Hneg | Hpos].
  - replace (0 <=? timestamp x) with false
      by (symmetry; apply Z.leb_gt; exact Hneg).
    simpl. now rewrite <- IH.
  - replace (0 <=? timestamp x) with true
      by (symmetry; apply Z.leb_le; exact Hpos).
    rewrite filter_none, filter_all; [reflexivity | |];
      (eapply Forall_impl; [| exact Hall]); simpl; intros c Hc.
    + apply Z.leb_le. lia.
    + apply Z.ltb_ge. lia.
Qed.

Lemma findIndexFrom_skip A (p : A -> bool) pre l i :
  (forall y, In y pre -> p y = false) ->
  JsArray.findIndexFrom i p (pre ++ l)
  = JsArray.findIndexFrom (i + Z.of_nat (List.length pre)) p l.
Proof.
  revert i; induction pre as [|y pre IH]; intros i H; simpl.
  - f_equal. lia.
  - rewrite (H y (or_introl eq_refl)), IH by (intros z Hz; apply H; now right).
    f_equal. lia.
Qed.

(** In a list with unique ids, looking an element up by its id gives its
    position. *)
Lemma findIndex_positions suf : forall pre,
  NoDup (map id (pre ++ suf)) ->
  map (fun c => JsArray.findIndex (fun d => String.eqb (id d) (id c))
                  (pre ++ suf)) suf
  = map Z.of_nat (seq (List.length pre) (List.length suf)).
Proof.
  induction suf as [|x suf IH]; intros pre Hnd; [reflexivity |].
  simpl. f_equal.
  - unfold JsArray.findIndex. rewrite findIndexFrom_skip.
    + simpl. now rewrite String.eqb_refl.
    + intros y Hy. apply String.eqb_neq. intros Hid.
      rewrite map_app in Hnd. simpl in Hnd.
      apply NoDup_remove_2 in Hnd. apply Hnd.
      apply in_or_app. left. rewrite <- Hid. now apply in_map.
  - specialize (IH (pre ++ [x])%list).
    rewrite <- app_assoc, length_app, Nat.add_1_r in IH. simpl in IH.
    now apply IH.
Qed.

(** X9. With unique ids, in the panel as it opens (no search, type "all",
    no filter, sort by timecode) the numbers read down the list are 0 for
    each general comment, which come first, and then 1, 2, 3, ... for the
    time-anchored comments. *)
Theorem X9_default_view_numbers_in_order
    (localeCompare : string -> string -> Z) (comments : list Comment) :
  NoDup (map id comments) ->
  map commentNumber
    (Panel.getTopLevelComments localeCompare comments Panel.initial)
  = (repeat 0
       (List.length
          (filter (fun c => noParent c && (timestamp c <? 0)) comments))
     ++ map Z.of_nat
          (seq 1
             (List.length
                (filter (fun c => noParent c && (0 <=? timestamp c))
                   comments))))%list.
Proof.
  intros Hnd. unfold Panel.getTopLevelComments. simpl.
  unfold getTopLevelComments. simpl. rewrite map_map. simpl.
  change (comparator localeCompare "timecode") with byTimestamp.
  set (S := JsArray.sort byTimestamp (filter noParent comments)).
  assert (Hsorted : StronglySorted (fun a b => timestamp a <= timestamp b) S).
  { apply StronglySorted_impl with (R := fun a b => byTimestamp a b <= 0).
    - unfold byTimestamp. intros a b. lia.
    - apply JsArrayFacts.sort_sorted;
        [apply byTimestamp_total | apply byTimestamp_trans]. }
  rewrite (sorted_generals_first S Hsorted) at 1.
  unfold S.
  rewrite !(sort_filter_commute _ byTimestamp byTimestamp_total
              byTimestamp_trans), !filter_filter_andb.
  fold (allTopLevelByTimestamp comments).
  rewrite map_app. f_equal.
  - rewrite <- (JsArrayFacts.sort_length byTimestamp
                  (filter (fun c => noParent c && (timestamp c <? 0)) comments)).
    set (G := JsArray.sort byTimestamp _).
    assert (HG : forall c, In c G -> numberOf comments c = 0).
    { intros c Hc. unfold G in Hc.
      apply JsArrayFacts.sort_In, filter_In in Hc as [Hin Hc].
      apply andb_true_iff in Hc as [_ Hc]. apply Z.ltb_lt in Hc.
      now apply numberOf_general. }
    clearbody G. induction G as [|c G IH]; [reflexivity |].
    simpl. rewrite (HG c (or_introl eq_refl)). f_equal.
    apply IH. intros d Hd. apply HG. now right.
  - rewrite <- allTopLevelByTimestamp_length.
    assert (HA : NoDup (map id (allTopLevelByTimestamp comments))).
    { unfold allTopLevelByTimestamp.
      apply (Permutation_NoDup
               (Permutation_map id
                  (Permutation_sym (JsArrayFacts.sort_perm _ _)))).
      now apply NoDup_map_filter. }
    pose proof (findIndex_positions (allTopLevelByTimestamp comments) [] HA)
      as Hpos.
    simpl in Hpos. unfold numberOf.
    rewrite <- (map_map (fun c => JsArray.findIndex
                                   (fun d => String.eqb (id d) (id c))
                                   (allTopLevelByTimestamp comments))
                  (fun z => z + 1)).
    rewrite Hpos, <- seq_shift, !map_map. apply map_ext. intros k. lia.
Qed.

Lemma X9_default_view_numbers_in_order_witness :
  map commentNumber
    (Panel.getTopLevelComments codeUnitCompare sampleComments Panel.initial)
  = [0; 1; 2; 3].
Proof.
  refine (eq_trans (X9_default_view_numbers_in_order codeUnitCompare
                      sampleComments _) _).
  - simpl. repeat constructor; simpl; intuition discriminate.
  - reflexivity.
Defined.

(** ** The attachments of the comment input *)

Lemma filterFrom_other A (index i : Z) (l : list A) :
  index < i ->
  JsLib.filterFrom i (fun _ j => negb (j =? index)) l = l.
Proof.
  revert i; induction l as [|x l IH]; intros i Hi; simpl; [reflexivity |].
  replace (i =? index) with false by (symmetry; apply Z.eqb_neq; lia).
  simpl. now rewrite IH by lia.
Qed.

Lemma filterFrom_removes A (before : list A) removed after i :
  JsLib.filterFrom i
    (fun _ j => negb (j =? i + Z.of_nat (List.length before)))
    (before ++ removed :: after)
  = (before ++ after)%list.
Proof.
  revert i; induction before as [|x before IH]; intros i; simpl.
  - rewrite Z.add_0_r, Z.eqb_refl. simpl. apply filterFrom_other. lia.
  - replace (i =? i + Z.pos (Pos.of_succ_nat (List.length before)))
      with false by (symmetry; apply Z.eqb_neq; lia).
    simpl. f_equal.
    replace (i + Z.pos (Pos.of_succ_nat (List.length before)))
      with (i + 1 + Z.of_nat (List.length before)) by lia.
    apply IH.
Qed.

Lemma setAttachments_same st :
  Input.setAttachments (Input.attachments st) st = st.
Proof. now destruct st. Qed.

(** X10. [removeAttachment] at a position of the list removes the
    attachment at that position and no other, keeps the order of the rest,
    and revokes the URL of the removed attachment exactly when it starts
    with "blob:"; at any other index it raises (reading [url] of
    [undefined]). *)
Theorem X10_removeAttachment_removes_one (index : Z) (st : Input.State) :
  (0 <= index < Z.of_nat (List.length (Input.attachments st)) ->
   exists before removed after,
     Input.attachments st = (before ++ removed :: after)%list /\
     Z.of_nat (List.length before) = index /\
     Input.removeAttachment index st
     = Some (if startsWith (url removed) "blob:" then [url removed] else [],
             Input.setAttachments (before ++ after) st))
  /\ (~ 0 <= index < Z.of_nat (List.length (Input.attachments st)) ->
      Input.removeAttachment index st = None).
Proof.
  unfold Input.removeAttachment, JsLib.at_. split.
  - intros [H0 Hlt].
    replace (index <? 0) with false by (symmetry; apply Z.ltb_ge; exact H0).
    destruct (nth_error (Input.attachments st) (Z.to_nat index))
      as [removed|] eqn:Hn.
    + destruct (nth_error_split _ _ Hn) as (before & after & Hl & Hlen).
      exists before, removed, after. split; [exact Hl |].
      split; [lia |]. do 2 f_equal. rewrite Hl. unfold JsLib.filterIndexed.
      replace index with (0 + Z.of_nat (List.length before)) by lia.
      now rewrite filterFrom_removes.
    + apply nth_error_None in Hn. lia.
  - intros Hout. destruct (Z.ltb_spec index 0) as [Hneg | Hpos];
      [reflexivity |].
    replace (nth_error (Input.attachments st) (Z.to_nat index)) with
      (@None AttachmentWithType); [reflexivity |].
    symmetry. apply nth_error_None. lia.
Qed.

Lemma X10_removeAttachment_removes_one_witness :
  Input.removeAttachment 0
    {| Input.comment := "see"; 
       Input.attachments :=
         [ {| url := "blob:1"; type := "image/png"; name := "frame.png" |};
           {| url := "https://example.org/a.pdf"; type := "application/pdf";
              name := "a.pdf" |} ];
       Input.isInternal := false; Input.attachTime := true;
       Input.showEmojiPicker := false; Input.showDrawingTools := false;
       Input.hasDrawing := false |}
  <> None.
Proof.
  destruct (proj1 (X10_removeAttachment_removes_one 0
                     {| Input.comment := "see";
                        Input.attachments :=
                          [ {| url := "blob:1"; type := "image/png";
                               name := "frame.png" |};
                            {| url := "https://example.org/a.pdf";
                               type := "application/pdf";
                               name := "a.pdf" |} ];
                        Input.isInternal := false; Input.attachTime := true;
                        Input.showEmojiPicker := false;
                        Input.showDrawingTools := false;
                        Input.hasDrawing := false |}))
    as (before & removed & after & _ & _ & Hrun).
  - simpl. lia.
  - rewrite Hrun. discriminate.
Defined.

Section Upload.
Variable File : Type.
Variables fileType fileName : File -> string.
Variable Browser : Type.
Variable createObjectURL : File -> Browser -> string * Browser.

Lemma newAttachments_spec files : forall b,
  map type (fst (Input.newAttachments fileType fileName createObjectURL
                   files b))
  = map fileType files /\
  map name (fst (Input.newAttachments fileType fileName createObjectURL
                   files b))
  = map fileName files.
Proof.
  induction files as [|file files IH]; intros b; simpl; [now split |].
  destruct (createObjectURL file b) as [u b1].
  specialize (IH b1).
  destruct (Input.newAttachments fileType fileName createObjectURL files b1)
    as [l b2].
  simpl in *. destruct IH as [-> ->]. now split.
Qed.

(** X11. [handleFileUpload] appends one attachment per chosen file, in the
    order of the files and with their types and names, to the attachments
    already there, and leaves the comment text alone. Removing, right after
    the upload of one file, the attachment at the old length gives back the
    state before the upload and revokes the URL minted for the file when it
    starts with "blob:". *)
Theorem X11_upload_then_remove (files : list File) (file : File)
    (st : Input.State) (b : Browser) :
  (exists added,
     Input.attachments
       (fst (Input.handleFileUpload fileType fileName createObjectURL files
               st b))
     = (Input.attachments st ++ added)%list /\
     map type added = map fileType files /\
     map name added = map fileName files)
  /\ Input.comment
       (fst (Input.handleFileUpload fileType fileName createObjectURL files
               st b))
     = Input.comment st
  /\ Input.removeAttachment
       (Z.of_nat (List.length (Input.attachments st)))
       (fst (Input.handleFileUpload fileType fileName createObjectURL [file]
               st b))
     = Some (if startsWith (fst (createObjectURL file b)) "blob:"
             then [fst (createObjectURL file b)] else [],
             st).
Proof.
  split; [| split].
  - unfold Input.handleFileUpload.
    pose proof (newAttachments_spec files b) as Hspec.
    destruct (Input.newAttachments fileType fileName createObjectURL files b)
      as [l b'].
    exists l. simpl in *. tauto.
  - unfold Input.handleFileUpload.
    now destruct (Input.newAttachments fileType fileName createObjectURL
                    files b).
  - unfold Input.handleFileUpload. simpl.
    destruct (createObjectURL file b) as [u b1]. simpl.
    unfold Input.removeAttachment, JsLib.at_. simpl.
    replace (Z.of_nat (List.length (Input.attachments st)) <? 0) with false
      by (symmetry; apply Z.ltb_ge; lia).
    rewrite Nat2Z.id, nth_error_app2, Nat.sub_diag by lia. simpl.
    do 2 f_equal. unfold JsLib.filterIndexed.
    replace (Z.of_nat (List.length (Input.attachments st)))
      with (0 + Z.of_nat (List.length (Input.attachments st))) by lia.
    rewrite filterFrom_removes, app_nil_r.
    now destruct st.
Qed.

End Upload.

(** ** The video review interface *)

(** X12. [formatRelativeTime] answers "Just now" below one minute, also for
    a date in the future; the whole minutes, from 1 to 59, followed by
    "m ago" below one hour; the whole hours, from 1 to 23, followed by
    "h ago" below one day; and the host's date from one day on. *)
Theorem X12_formatRelativeTime_buckets
    (toLocaleDateString : Z -> string) (now date : Z) :
  (now - date < 60000 ->
   VideoReview.formatRelativeTime toLocaleDateString now date = "Just now")
  /\ (60000 <= now - date < 3600000 ->
      1 <= (now - date) / 60000 <= 59 /\
      VideoReview.formatRelativeTime toLocaleDateString now date
      = JsLib.numberToString ((now - date) / 60000) ++ "m ago")
  /\ (3600000 <= now - date < 86400000 ->
      1 <= (now - date) / 3600000 <= 23 /\
      VideoReview.formatRelativeTime toLocaleDateString now date
      = JsLib.numberToString ((now - date) / 3600000) ++ "h ago")
  /\ (86400000 <= now - date ->
      VideoReview.formatRelativeTime toLocaleDateString now date
      = toLocaleDateString date).
Proof.
  unfold VideoReview.formatRelativeTime. cbv zeta.
  assert (Hh : (now - date) / 60000 / 60 = (now - date) / 3600000)
    by (rewrite Z.div_div by lia; reflexivity).
  rewrite Hh.
  pose proof (Z.div_mod (now - date) 60000 ltac:(lia)) as Hm.
  pose proof (Z.mod_pos_bound (now - date) 60000 ltac:(lia)) as Hmb.
  pose proof (Z.div_mod (now - date) 3600000 ltac:(lia)) as Hd.
  pose proof (Z.mod_pos_bound (now - date) 3600000 ltac:(lia)) as Hdb.
  repeat split; intros;
    repeat match goal with
           | |- context [?a <? ?b] => destruct (Z.ltb_spec a b)
           end; try reflexivity; try lia.
Qed.

Lemma X12_formatRelativeTime_buckets_witness :
  VideoReview.formatRelativeTime (fun _ => "1/1/2026") 7260000 0
  = "2h ago".
Proof.
  refine (eq_trans
            (proj2 (proj1 (proj2 (proj2
               (X12_formatRelativeTime_buckets (fun _ => "1/1/2026")
                  7260000 0))) _)) _).
  - lia.
  - reflexivity.
Defined.

Lemma filter_partition_perm A (p : A -> bool) (l : list A) :
  Permutation (filter (fun x => negb (p x)) l ++ filter p l) l.
Proof.
  induction l as [|x l IH]; simpl; [constructor |].
  destruct (p x); simpl.
  - apply Permutation_sym, Permutation_cons_app, Permutation_sym, IH.
  - now constructor.
Qed.

(** X13. The comments listed by the review interface are those that the
    chosen filter keeps, by ascending timestamp, comments of the same
    timestamp in the order of the collection; a comment without [resolved]
    counts as unresolved, so the "unresolved" and the "resolved" lists
    together hold every comment exactly once, and any other filter value
    lists them all. *)
Theorem X13_review_filter_partitions
    (comments : list VideoReview.VideoComment) (filter : string) :
  Permutation
    (VideoReview.filteredComments comments "unresolved"
     ++ VideoReview.filteredComments comments "resolved")
    comments
  /\ StronglySorted
       (fun a b => VideoReview.timestamp a <= VideoReview.timestamp b)
       (VideoReview.filteredComments comments filter)
  /\ (forall k,
        List.filter (fun c => VideoReview.timestamp c =? k)
          (VideoReview.filteredComments comments filter)
        = List.filter (fun c => VideoReview.timestamp c =? k)
            (List.filter (VideoReview.keeps filter) comments))
  /\ (forall c, VideoReview.resolved c = None ->
        In c comments ->
        In c (VideoReview.filteredComments comments "unresolved"))
  /\ (filter <> "unresolved" -> filter <> "resolved" ->
      Permutation (VideoReview.filteredComments comments filter) comments).
Proof.
  unfold VideoReview.filteredComments.
  split; [| split; [| split; [| split]]].
  - rewrite !JsArrayFacts.sort_perm. apply filter_partition_perm.
  - apply StronglySorted_impl
      with (R := fun a b => VideoReview.timestamp a
                            - VideoReview.timestamp b <= 0).
    + intros a b. lia.
    + apply JsArrayFacts.sort_sorted; intros; lia.
  - intros k. apply JsArrayFacts.sort_filter.
    intros x y Hx Hy. lia.
  - intros c Hc Hin. apply JsArrayFacts.sort_In, filter_In.
    split; [exact Hin |]. unfold VideoReview.keeps, VideoReview.isResolved.
    simpl. now rewrite Hc.
  - intros H1 H2. rewrite JsArrayFacts.sort_perm.
    unfold VideoReview.keeps.
    apply String.eqb_neq in H1, H2. rewrite H1, H2.
    rewrite filter_all; [reflexivity |]. now apply Forall_forall.
Qed.

Lemma X13_review_filter_partitions_witness :
  Permutation
    (VideoReview.filteredComments
       [ VideoReview.mkVideoComment "a" 7 "cut here" "Ann Lee" "#f00" 10
           None None;
         VideoReview.mkVideoComment "b" 3 "fixed" "Bo" "#0f0" 20
           (Some true) None ]
       "everything")
    [ VideoReview.mkVideoComment "a" 7 "cut here" "Ann Lee" "#f00" 10
        None None;
      VideoReview.mkVideoComment "b" 3 "fixed" "Bo" "#0f0" 20
        (Some true) None ].
Proof.
  apply X13_review_filter_partitions; discriminate.
Defined.

(** ** Times and the copied text *)

Lemma below_60 (P : Z -> Prop) (check : Z -> bool) :
  (forall r, check r = true -> P r) ->
  forallb (fun n => check (Z.of_nat n)) (seq 0 60) = true ->
  forall r, 0 <= r < 60 -> P r.
Proof.
  intros Hc Hall r Hr. apply Hc.
  rewrite forallb_forall in Hall. rewrite <- (Z2Nat.id r) by lia.
  apply Hall. apply in_seq. lia.
Qed.

Lemma pad_two_digits r :
  0 <= r < 60 ->
  JsLib.padStart (JsLib.numberToString r) 2 "0"
  = String (digit (r / 10)) (String (digit (r mod 10)) "").
Proof.
  apply (below_60
           (fun r => JsLib.padStart (JsLib.numberToString r) 2 "0"
                     = String (digit (r / 10)) (String (digit (r mod 10)) ""))
           (fun r => String.eqb
                       (JsLib.padStart (JsLib.numberToString r) 2 "0")
                       (String (digit (r / 10))
                          (String (digit (r mod 10)) "")))).
  - intros r0. apply String.eqb_eq.
  - vm_compute. reflexivity.
Qed.

Lemma pad_negative r :
  0 <= r < 60 -> r <> 0 ->
  JsLib.padStart (JsLib.numberToString (- r)) 2 "0"
  = JsLib.numberToString (- r).
Proof.
  intros Hr. revert r Hr.
  apply (below_60
           (fun r => r <> 0 ->
                     JsLib.padStart (JsLib.numberToString (- r)) 2 "0"
                     = JsLib.numberToString (- r))
           (fun r => (r =? 0)
                     || String.eqb
                          (JsLib.padStart (JsLib.numberToString (- r)) 2 "0")
                          (JsLib.numberToString (- r)))).
  - intros r0 H Hne. apply orb_true_iff in H as [H | H].
    + apply Z.eqb_eq in H. contradiction.
    + now apply String.eqb_eq.
  - vm_compute. reflexivity.
Qed.

(** X14. For a whole number of seconds from 0 up to
    [Number.MAX_SAFE_INTEGER], [formatTime] writes the minutes, a colon and
    the seconds within the minute with exactly two digits. For a whole
    number of seconds between -60 and 0, such as the -1 of a general
    comment, it writes "-1:" followed by the number itself. *)
Theorem X14_formatTime_whole_seconds (seconds : Z) :
  (0 <= seconds <= JsLib.maxSafeInteger ->
   0 <= seconds / 60 <= JsLib.maxSafeInteger /\
   Panel.formatTime seconds
   = JsLib.numberToString (seconds / 60) ++ ":"
     ++ String (digit (seconds mod 60 / 10))
          (String (digit (seconds mod 60 mod 10)) ""))
  /\ (-60 < seconds < 0 ->
      Panel.formatTime seconds = "-1:" ++ JsLib.numberToString seconds).
Proof.
  unfold Panel.formatTime, JsLib.maxSafeInteger. cbv zeta. split.
  - intros H. split.
    + pose proof (Z.div_mod seconds 60 ltac:(lia)).
      pose proof (Z.mod_pos_bound seconds 60 ltac:(lia)). lia.
    + rewrite Z.rem_mod_nonneg by lia.
      rewrite pad_two_digits by (apply Z.mod_pos_bound; lia). reflexivity.
  - intros H.
    assert (Hq : seconds / 60 = -1).
    { pose proof (Z.div_mod seconds 60 ltac:(lia)).
      pose proof (Z.mod_pos_bound seconds 60 ltac:(lia)). lia. }
    assert (Hr : Z.rem seconds 60 = seconds).
    { replace seconds with (- (- seconds)) at 1 by lia.
      rewrite Z.rem_opp_l', Z.rem_small by lia. lia. }
    rewrite Hq, Hr.
    replace seconds with (- (- seconds)) by lia.
    rewrite pad_negative by lia. reflexivity.
Qed.

Lemma X14_formatTime_whole_seconds_witness :
  Panel.formatTime 3599 = "59:59" /\ Panel.formatTime (-1) = "-1:-1".
Proof.
  split.
  - refine (eq_trans (proj2 (proj1 (X14_formatTime_whole_seconds 3599) _)) _);
      [unfold JsLib.maxSafeInteger; lia | reflexivity].
  - refine (eq_trans (proj2 (X14_formatTime_whole_seconds (-1)) _) _);
      [lia | reflexivity].
Defined.

Lemma includes_char_app a b c :
  includes (a ++ b) (String c "")
  = includes a (String c "") || includes b (String c "").
Proof.
  induction a as [|d a IH].
  - simpl. destruct b; simpl; now rewrite ?andb_true_r.
  - change (String d a ++ b) with (String d (a ++ b)).
    rewrite !JsLibFacts.includes_char_cons, IH. now rewrite orb_assoc.
Qed.

Lemma string_of_uint_no_lineFeed d :
  includes (NilEmpty.string_of_uint d) (String lineFeed "") = false.
Proof.
  induction d; simpl NilEmpty.string_of_uint; [reflexivity | ..];
    rewrite JsLibFacts.includes_char_cons, IHd; reflexivity.
Qed.

Lemma numberToString_no_lineFeed n :
  includes (JsLib.numberToString n) (String lineFeed "") = false.
Proof.
  unfold JsLib.numberToString, NilZero.string_of_int, NilZero.string_of_uint.
  destruct (Z.to_int n) as [d | d].
  - destruct d; try reflexivity; apply string_of_uint_no_lineFeed.
  - rewrite JsLibFacts.includes_char_cons.
    destruct d; try reflexivity; apply string_of_uint_no_lineFeed.
Qed.

Lemma formatTime_no_lineFeed seconds :
  includes (Panel.formatTime seconds) (String lineFeed "") = false.
Proof.
  unfold Panel.formatTime, JsLib.padStart. cbv zeta.
  rewrite !includes_char_app, !numberToString_no_lineFeed.
  destruct (2 - String.length (JsLib.numberToString (Z.rem seconds 60)))%nat
    as [|[|[|k]]] eqn:E; try reflexivity.
  lia.
Qed.

Lemma split_join lines :
  lines <> [] ->
  (forall l, In l lines -> includes l (String lineFeed "") = false) ->
  JsLib.split lineFeed (JsLib.join (String lineFeed "") lines) = lines.
Proof.
  induction lines as [|x lines IH]; [congruence |]. intros _ H.
  destruct lines as [|y lines].
  - simpl. apply JsLibFacts.split_without. apply H. now left.
  - change (JsLib.join (String lineFeed "") (x :: y :: lines))
      with (x ++ String lineFeed (JsLib.join (String lineFeed "") (y :: lines))).
    rewrite JsLibFacts.split_app, IH.
    + rewrite JsLibFacts.split_without by (apply H; now left). reflexivity.
    + discriminate.
    + intros l Hl. apply H. now right.
Qed.

(** X15. [handleCopyComments] copies the empty text when no comment is
    listed. Otherwise, when no author and no text of a listed comment has a
    line feed, the copied text splits at its line feeds into exactly one
    line per listed comment, in the order of the list: the time, " - ", the
    author, ": " and the text. *)
Theorem X15_copy_one_line_per_comment
    (localeCompare : string -> string -> Z) (comments : list Comment)
    (st : Panel.State) :
  (Panel.getTopLevelComments localeCompare comments st = [] ->
   Panel.handleCopyComments localeCompare comments st = "")
  /\ (Panel.getTopLevelComments localeCompare comments st <> [] ->
      (forall e, In e (Panel.getTopLevelComments localeCompare comments st) ->
         ~ Contains (author (comment e)) (String lineFeed "") /\
         ~ Contains (text (comment e)) (String lineFeed "")) ->
      JsLib.split lineFeed
        (Panel.handleCopyComments localeCompare comments st)
      = map copiedLine
          (Panel.getTopLevelComments localeCompare comments st)).
Proof.
  unfold Panel.handleCopyComments. cbv zeta.
  change (fun c : NumberedComment =>
            Panel.formatTime (timestamp (comment c)) ++ " - "
            ++ author (comment c) ++ ": " ++ text (comment c))
    with copiedLine.
  change (String (ascii_of_nat 10) "") with (String lineFeed "").
  split.
  - now intros ->.
  - intros Hne Hlines. apply split_join.
    + intros Hnil. apply map_eq_nil in Hnil. contradiction.
    + intros l Hl. apply in_map_iff in Hl as (e & <- & He).
      destruct (Hlines e He) as [Ha Ht].
      apply not_Contains_includes in Ha, Ht.
      unfold copiedLine.
      now rewrite !includes_char_app, formatTime_no_lineFeed, Ha, Ht.
Qed.

Lemma X15_copy_one_line_per_comment_witness :
  List.length
    (JsLib.split lineFeed
       (Panel.handleCopyComments codeUnitCompare sampleComments
          Panel.initial))
  = 4%nat.
Proof.
  rewrite (proj2 (X15_copy_one_line_per_comment codeUnitCompare sampleComments
                    Panel.initial)).
  - reflexivity.
  - discriminate.
  - intros e He. vm_compute in He.
    repeat (destruct He as [<- | He];
            [split; rewrite <- includes_spec; discriminate |]).
    destruct He.
Defined.

(** X16. [handleExportComments] writes the header line and then, when no
    author, text or rendered date of a listed comment has a line feed,
    exactly one row per listed comment, in the order of the list: the time,
    the author, the text between double quotes and the date, separated by
    commas and written as they are. *)
Theorem X16_export_one_row_per_comment
    (localeCompare : string -> string -> Z) (toISOString : Z -> string)
    (comments : list Comment) (st : Panel.State) :
  (forall e, In e (Panel.getTopLevelComments localeCompare comments st) ->
     ~ Contains (author (comment e)) (String lineFeed "") /\
     ~ Contains (text (comment e)) (String lineFeed "") /\
     ~ Contains (toISOString (createdAt (comment e))) (String lineFeed "")) ->
  JsLib.split lineFeed
    (Panel.handleExportComments localeCompare toISOString comments st)
  = "Timestamp,Author,Text,Created At"
    :: map (exportedRow toISOString)
         (Panel.getTopLevelComments localeCompare comments st).
Proof.
  intros Hrows. unfold Panel.handleExportComments. cbv zeta.
  change (fun c : NumberedComment =>
            Panel.formatTime (timestamp (comment c)) ++ ","
            ++ author (comment c) ++ ","
            ++ String (ascii_of_nat 34) (text (comment c))
            ++ String (ascii_of_nat 34) ","
            ++ toISOString (createdAt (comment c)))
    with (exportedRow toISOString).
  change (String (ascii_of_nat 10) "") with (String lineFeed "").
  apply split_join; [discriminate |].
  intros l [<- | Hl]; [reflexivity |].
  apply in_map_iff in Hl as (e & <- & He).
  destruct (Hrows e He) as (Ha & Ht & Hd).
  apply not_Contains_includes in Ha, Ht, Hd.
  unfold exportedRow.
  change (String (ascii_of_nat 34) (text (comment e))
          ++ String (ascii_of_nat 34) ","
          ++ toISOString (createdAt (comment e)))
    with (String (ascii_of_nat 34) ""
          ++ text (comment e) ++ String (ascii_of_nat 34) ","
          ++ toISOString (createdAt (comment e))).
  now rewrite !includes_char_app, formatTime_no_lineFeed, Ha, Ht, Hd.
Qed.

Lemma X16_export_one_row_per_comment_witness :
  List.length
    (JsLib.split lineFeed
       (Panel.handleExportComments codeUnitCompare
          (fun _ => "2026-01-01T00:00:00.000Z") sampleComments
          Panel.initial))
  = 5%nat.
Proof.
  rewrite (X16_export_one_row_per_comment codeUnitCompare
             (fun _ => "2026-01-01T00:00:00.000Z") sampleComments
             Panel.initial).
  - reflexivity.
  - intros e He. vm_compute in He.
    repeat (destruct He as [<- | He];
            [repeat split; rewrite <- includes_spec; discriminate |]).
    destruct He.
Defined.

Lemma join_empty_app l1 l2 :
  JsLib.join "" (l1 ++ l2) = JsLib.join "" l1 ++ JsLib.join "" l2.
Proof.
  induction l1 as [|x l1 IH]; [reflexivity |].
  assert (Hcons : forall y l, JsLib.join "" (y :: l) = y ++ JsLib.join "" l).
  { intros y [|z l]; simpl; [| reflexivity].
    clear. induction y as [|c y IH]; simpl; [reflexivity | now rewrite <- IH]. }
  change ((x :: l1) ++ l2)%list with (x :: (l1 ++ l2))%list.
  rewrite !Hcons, IH.
  clear. induction x as [|c x IH]; simpl; [reflexivity | now rewrite IH].
Qed.

(** X17. The avatar text of an author is made of the first code unit of
    each word between spaces, in order: a name without a space gives its
    first code unit (nothing when it is empty), and a name cut at a space
    gives the initials of the part before it followed by those of the part
    after it, so doubled, leading and trailing spaces add nothing. *)
Theorem X17_initials_of_words (a b w : string) :
  VideoReview.initials (a ++ " " ++ b)
  = VideoReview.initials a ++ VideoReview.initials b
  /\ (~ Contains w " " ->
      VideoReview.initials w
      = match w with
        | EmptyString => EmptyString
        | String c _ => String c EmptyString
        end).
Proof.
  unfold VideoReview.initials, VideoReview.joinElements. split.
  - change (a ++ " " ++ b) with (a ++ String " " b).
    now rewrite JsLibFacts.split_app, !map_app, join_empty_app.
  - intros Hw. apply not_Contains_includes in Hw.
    rewrite JsLibFacts.split_without by exact Hw. now destruct w.
Qed.

Lemma X17_initials_of_words_witness :
  VideoReview.initials "Ada" = "A".
Proof.
  apply (proj2 (X17_initials_of_words "" "" "Ada")).
  rewrite <- includes_spec. discriminate.
Defined.
